(** * typingTest: the typing session of [main.go]

    A shallow embedding of the session model of the terminal typing trainer
    ([Model], [NewModel], [Quit], [Update]) together with the parts of its
    dependencies that the session observes: Go strings as byte sequences,
    the [range] loop over a string, [time.Duration], [fmt.Sprintf] for the
    verbs the summary uses, and the stopwatch component that times the run.

    Go's [float64] is the kernel's binary64 [float]; Go's [int] values are
    mathematical integers in [Z] (every one the session computes is a length
    or an index below a length), except the stopwatch's duration and tag,
    whose 64-bit wrap-around is written out. A Go panic is the [Panic] result. *)

From Stdlib Require Import ZArith QArith String Ascii List Bool Lia.
From Stdlib Require Import DecimalString.
From Stdlib Require Import PrimFloat FloatOps SpecFloat.
From stdpp Require Import base list.
Import ListNotations.

Open Scope string_scope.
Open Scope Z_scope.

(** ** Results of code that can panic

    [Panic] carries the kind of the run-time error or the text given to
    [panic]; the operands Go adds to an index error are left out. *)

Inductive result (A : Type) : Type :=
| Ok (a : A)
| Panic (msg : string).
Arguments Ok {A} a.
Arguments Panic {A} msg.

Definition bind {A B : Type} (r : result A) (k : A -> result B) : result B :=
  match r with
  | Ok a => k a
  | Panic msg => Panic msg
  end.

Notation "'let*' x ':=' r 'in' k" := (bind r (fun x => k))
  (at level 10, x name, r at level 100, k at level 200).

Definition is_Ok {A : Type} (r : result A) : bool :=
  match r with Ok _ => true | Panic _ => false end.

(** ** Go strings: sequences of bytes *)

Definition nl : string := String (ascii_of_nat 10) "".

Definition byteZ (c : ascii) : Z := Z.of_N (N_of_ascii c).
Definition byte_of (z : Z) : ascii := ascii_of_N (Z.to_N z).

(** [len(s)] *)
Definition len (s : string) : Z := Z.of_nat (String.length s).

(** [s[i]]: the byte at [i]; out of range is a run-time panic. *)
Definition index_byte (s : string) (i : Z) : result ascii :=
  if (0 <=? i) && (i <? len s) then
    match String.get (Z.to_nat i) s with
    | Some c => Ok c
    | None => Panic "index out of range"
    end
  else Panic "index out of range".

Definition RuneError : Z := 65533.

(** [utf8.EncodeRune], the conversion [string(r)] of a rune (or of a byte,
    which converts as the code point of its value). *)
Definition string_of_rune (r : Z) : string :=
  if (0 <=? r) && (r <? 128) then String (byte_of r) ""
  else if (0 <=? r) && (r <? 2048) then
    String (byte_of (Z.lor 192 (Z.shiftr r 6)))
      (String (byte_of (Z.lor 128 (Z.land r 63))) "")
  else if (r <? 0) || (1114111 <? r) || ((55296 <=? r) && (r <=? 57343)) then
    String (byte_of 239) (String (byte_of 191) (String (byte_of 189) ""))
  else if r <? 65536 then
    String (byte_of (Z.lor 224 (Z.shiftr r 12)))
      (String (byte_of (Z.lor 128 (Z.land (Z.shiftr r 6) 63)))
        (String (byte_of (Z.lor 128 (Z.land r 63))) ""))
  else
    String (byte_of (Z.lor 240 (Z.shiftr r 18)))
      (String (byte_of (Z.lor 128 (Z.land (Z.shiftr r 12) 63)))
        (String (byte_of (Z.lor 128 (Z.land (Z.shiftr r 6) 63)))
          (String (byte_of (Z.lor 128 (Z.land r 63))) ""))).

Definition string_of_byte (b : ascii) : string := string_of_rune (byteZ b).

(** The table [first] of package utf8 for a leading byte of 0x80 and above:
    the length of the sequence and the range the second byte must lie in;
    [None] for a byte that starts no sequence. *)
Definition first (s0 : Z) : option (nat * Z * Z) :=
  if (194 <=? s0) && (s0 <=? 223) then Some (2%nat, 128, 191)
  else if s0 =? 224 then Some (3%nat, 160, 191)
  else if (225 <=? s0) && (s0 <=? 236) then Some (3%nat, 128, 191)
  else if s0 =? 237 then Some (3%nat, 128, 159)
  else if (238 <=? s0) && (s0 <=? 239) then Some (3%nat, 128, 191)
  else if s0 =? 240 then Some (4%nat, 144, 191)
  else if (241 <=? s0) && (s0 <=? 243) then Some (4%nat, 128, 191)
  else if s0 =? 244 then Some (4%nat, 128, 143)
  else None.

Definition is_cont (b : Z) : bool := (128 <=? b) && (b <=? 191).

(** [utf8.DecodeRuneInString]: the first rune of [s] and its width in
    bytes; an invalid or short sequence is [RuneError] of width 1. *)
Definition DecodeRuneInString (s : string) : Z * nat :=
  match s with
  | EmptyString => (RuneError, 0%nat)
  | String c0 t =>
    let s0 := byteZ c0 in
    if s0 <? 128 then (s0, 1%nat)
    else
      match first s0 with
      | None => (RuneError, 1%nat)
      | Some (sz, lo, hi) =>
        if (String.length s <? sz)%nat then (RuneError, 1%nat)
        else
          match t with
          | String c1 (String c2 (String c3 _)) =>
            let '(s1, s2, s3) := (byteZ c1, byteZ c2, byteZ c3) in
            if (s1 <? lo) || (hi <? s1) then (RuneError, 1%nat)
            else if (sz <=? 2)%nat then
              (Z.lor (Z.shiftl (Z.land s0 31) 6) (Z.land s1 63), 2%nat)
            else if negb (is_cont s2) then (RuneError, 1%nat)
            else if (sz <=? 3)%nat then
              (Z.lor (Z.shiftl (Z.land s0 15) 12)
                 (Z.lor (Z.shiftl (Z.land s1 63) 6) (Z.land s2 63)), 3%nat)
            else if negb (is_cont s3) then (RuneError, 1%nat)
            else
              (Z.lor (Z.shiftl (Z.land s0 7) 18)
                 (Z.lor (Z.shiftl (Z.land s1 63) 12)
                    (Z.lor (Z.shiftl (Z.land s2 63) 6) (Z.land s3 63))), 4%nat)
          | String c1 (String c2 EmptyString) =>
            let '(s1, s2) := (byteZ c1, byteZ c2) in
            if (s1 <? lo) || (hi <? s1) then (RuneError, 1%nat)
            else if (sz <=? 2)%nat then
              (Z.lor (Z.shiftl (Z.land s0 31) 6) (Z.land s1 63), 2%nat)
            else if negb (is_cont s2) then (RuneError, 1%nat)
            else
              (Z.lor (Z.shiftl (Z.land s0 15) 12)
                 (Z.lor (Z.shiftl (Z.land s1 63) 6) (Z.land s2 63)), 3%nat)
          | String c1 EmptyString =>
            let s1 := byteZ c1 in
            if (s1 <? lo) || (hi <? s1) then (RuneError, 1%nat)
            else (Z.lor (Z.shiftl (Z.land s0 31) 6) (Z.land s1 63), 2%nat)
          | EmptyString => (RuneError, 1%nat)
          end
      end
  end.

(** [for index, r := range s]: the runes of [s], each with the index of its
    first byte. [skip] counts the bytes of the current rune still to pass. *)
Fixpoint range_from (skip : nat) (index : Z) (s : string) : list (Z * Z) :=
  match s with
  | EmptyString => []
  | String _ t =>
    match skip with
    | S k => range_from k (index + 1) t
    | O =>
      let '(r, size) := DecodeRuneInString s in
      (index, r) :: range_from (Nat.pred size) (index + 1) t
    end
  end.

Definition range_string (s : string) : list (Z * Z) := range_from 0 0 s.

(** [strings.HasPrefix] and [strings.Contains] *)
Fixpoint HasPrefix (s prefix : string) : bool :=
  match prefix, s with
  | EmptyString, _ => true
  | String p prefix', String c s' => Ascii.eqb p c && HasPrefix s' prefix'
  | String _ _, EmptyString => false
  end.

Fixpoint Contains (s substr : string) : bool :=
  HasPrefix s substr ||
  match s with
  | EmptyString => false
  | String _ s' => Contains s' substr
  end.

(** [strings.Join] *)
Fixpoint Join (elems : list string) (sep : string) : string :=
  match elems with
  | [] => ""
  | [e] => e
  | e :: rest => e ++ sep ++ Join rest sep
  end.

(** ** float64, time.Duration and the formatting verbs of the summary *)

(** [float64(n)] for an integer [n]: the nearest binary64 value, ties to even. *)
Definition float_of_Z (z : Z) : float :=
  SF2Prim (binary_normalize 53 1024 z 0 false).

(** A [time.Duration] is an int64 count of nanoseconds. *)
Definition wrap64 (z : Z) : Z := (z + 2 ^ 63) mod 2 ^ 64 - 2 ^ 63.

Definition Millisecond : Z := 1000000.
Definition Second : Z := 1000 * Millisecond.
Definition Minute : Z := 60 * Second.

(** [Duration.Seconds] and [Duration.Minutes]: the whole part and the
    remainder are converted apart (Go's division truncates towards zero). *)
Definition Seconds (d : Z) : float :=
  (float_of_Z (Z.quot d Second) + float_of_Z (Z.rem d Second) / float_of_Z 1000000000)%float.

Definition Minutes (d : Z) : float :=
  (float_of_Z (Z.quot d Minute) + float_of_Z (Z.rem d Minute) / float_of_Z 60000000000)%float.

(** The verb [%v] on an int. *)
Definition decimal (z : Z) : string := NilZero.string_of_int (Z.to_int z).

Definition round_half_even (num den : Z) : Z :=
  let q := num / den in
  let r := num mod den in
  if 2 * r <? den then q
  else if den <? 2 * r then q + 1
  else if Z.even q then q else q + 1.

Fixpoint zeros (n : nat) : string :=
  match n with O => "" | S k => String "0" (zeros k) end.

(** [n] is the value scaled by [10^prec]; printed with [prec] decimals. *)
Definition fixed (prec : nat) (n : Z) : string :=
  let p := 10 ^ Z.of_nat prec in
  let frac := decimal (n mod p) in
  match prec with
  | O => decimal (n / p)
  | _ => decimal (n / p) ++ "." ++ zeros (prec - String.length frac) ++ frac
  end.

(** The verb [%.<prec>f] on a float64: the exact binary value rounded to
    [prec] decimals, ties to even; [NaN], [+Inf] and [-Inf] by name. *)
Definition FormatFloat (prec : nat) (f : float) : string :=
  match Prim2SF f with
  | S754_nan => "NaN"
  | S754_infinity s => if s then "-Inf" else "+Inf"
  | S754_zero s => (if s then "-" else "") ++ fixed prec 0
  | S754_finite s m e =>
    let num := Z.pos m * 10 ^ Z.of_nat prec in
    let n := if 0 <=? e then num * 2 ^ e else round_half_even num (2 ^ (- e)) in
    (if s then "-" else "") ++ fixed prec n
  end.

(** ** The session's types *)

Inductive Status : Type := Neutral | Good | Bad.

(** The constants of [type Status int]. *)
Definition Status_int (s : Status) : Z :=
  match s with
  | Neutral => -1
  | Good => 1
  | Bad => 0
  end.

Definition Status_eqb (a b : Status) : bool :=
  match a, b with
  | Neutral, Neutral | Good, Good | Bad, Bad => true
  | _, _ => false
  end.

Definition ok_inputs : string := " abcdefghijklmnopqrstuvwxyz".

(** Messages of the event loop. A key message is known to [Update] by its
    [String()] only, so that is what [KeyMsg] carries. The stopwatch's
    messages carry the id of the stopwatch they are for. *)
Inductive Msg : Type :=
| KeyMsg (key : string)
| StartStopMsg (ID : Z) (running : bool)
| ResetMsg (ID : Z)
| TickMsg (ID : Z) (tag : Z)
| OtherMsg.

(** Commands handed back to the event loop: [nil], [tea.Quit], and the
    stopwatch's commands, which the loop runs to send the stopwatch's
    messages back later. *)
Inductive Cmd : Type :=
| cmd_nil
| tea_Quit
| cmd_Start (id tag interval : Z)
| cmd_Stop (id : Z)
| cmd_tick (id tag interval : Z).

Definition is_nil (c : Cmd) : bool :=
  match c with cmd_nil => true | _ => false end.

(** ** The stopwatch component

    Its methods have value receivers: [Start] and [Stop] only build the
    command that will send a [StartStopMsg]; the [running] flag changes when
    [Update] receives that message. *)
Module stopwatch.

Record Model : Type := mk {
  d : Z;
  id : Z;
  tag : Z;
  running : bool;
  Interval : Z
}.

Definition NewWithInterval (next_id interval : Z) : Model :=
  {| d := 0; id := next_id; tag := 0; running := false; Interval := interval |}.

Definition Start (m : Model) : Cmd := cmd_Start (id m) (tag m) (Interval m).
Definition Stop (m : Model) : Cmd := cmd_Stop (id m).
Definition Running (m : Model) : bool := running m.
Definition Elapsed (m : Model) : Z := d m.

Definition Update (m : Model) (msg : Msg) : Model * Cmd :=
  match msg with
  | StartStopMsg ID r =>
    if negb (ID =? id m) then (m, cmd_nil)
    else ({| d := d m; id := id m; tag := tag m; running := r; Interval := Interval m |}, cmd_nil)
  | ResetMsg ID =>
    if negb (ID =? id m) then (m, cmd_nil)
    else ({| d := 0; id := id m; tag := tag m; running := running m; Interval := Interval m |}, cmd_nil)
  | TickMsg ID t =>
    if negb (running m) || negb (ID =? id m) then (m, cmd_nil)
    else if (0 <? t) && negb (t =? tag m) then (m, cmd_nil)
    else
      let m' := {| d := wrap64 (d m + Interval m); id := id m; tag := wrap64 (tag m + 1);
                   running := running m; Interval := Interval m |} in
      (m', cmd_tick (id m') (tag m') (Interval m'))
  | _ => (m, cmd_nil)
  end.

End stopwatch.

(** ** The session model *)

Record Model : Type := mkModel {
  chars : string;
  words : list string;
  inputs : list Status;
  current : Z;
  quitting : bool;
  time : stopwatch.Model;
  stats : string
}.

Definition set_inputs (m : Model) (l : list Status) : Model :=
  {| chars := chars m; words := words m; inputs := l; current := current m;
     quitting := quitting m; time := time m; stats := stats m |}.

Definition set_current (m : Model) (c : Z) : Model :=
  {| chars := chars m; words := words m; inputs := inputs m; current := c;
     quitting := quitting m; time := time m; stats := stats m |}.

Definition set_quitting (m : Model) (q : bool) : Model :=
  {| chars := chars m; words := words m; inputs := inputs m; current := current m;
     quitting := q; time := time m; stats := stats m |}.

Definition set_time (m : Model) (t : stopwatch.Model) : Model :=
  {| chars := chars m; words := words m; inputs := inputs m; current := current m;
     quitting := quitting m; time := t; stats := stats m |}.

Definition set_stats (m : Model) (s : string) : Model :=
  {| chars := chars m; words := words m; inputs := inputs m; current := current m;
     quitting := quitting m; time := time m; stats := s |}.

(** [l[i]] and [l[i] = x] on a slice: out of range is a run-time panic. *)
Definition index_list {A : Type} (l : list A) (i : Z) : result A :=
  if (0 <=? i) && (i <? Z.of_nat (List.length l)) then
    match l !! Z.to_nat i with
    | Some x => Ok x
    | None => Panic "index out of range"
    end
  else Panic "index out of range".

Definition store_list {A : Type} (l : list A) (i : Z) (x : A) : result (list A) :=
  if (0 <=? i) && (i <? Z.of_nat (List.length l)) then Ok (<[Z.to_nat i := x]> l)
  else Panic "index out of range".

(** ** Construction *)

Section Construction.

(** The terminal and the word-wrapper are outside the repository:
    [term_GetSize fd] is the (width, height) of the terminal, [None] when the
    call returns an error; [wordwrap_String s limit] is the wrapped text. *)
Variable term_GetSize : Z -> option (Z * Z).
Variable wordwrap_String : string -> Z -> string.

(** The stopwatch is the first one the process creates, so its id is 1. *)
Definition NewModel (words : list string) : result Model :=
  match term_GetSize 0 with
  | None => Panic "Couldn't get terminal size."
  | Some (w, _) =>
    let s := wordwrap_String (Join words " ") w in
    if len s =? 0 then Panic "Model creation error : zero words provided"
    else
      Ok {| chars := s; words := words;
            inputs := replicate (String.length s) Neutral;
            current := 0; quitting := false;
            time := stopwatch.NewWithInterval 1 Millisecond; stats := "" |}
  end.

End Construction.

(** ** End of session: [Quit] *)

(** The first loop of [Quit]: one verdict per space met, in [typed]; [flag]
    is the verdict of the word being read. *)
Fixpoint scan_words (rs : list (Z * Z)) (inputs : list Status)
    (typed : list Status) (flag : Status) : result (list Status * Status) :=
  match rs with
  | [] => Ok (typed, flag)
  | (index, curr_char) :: rest =>
    if (string_of_rune curr_char =? " ")%string then
      scan_words rest inputs (typed ++ [flag])%list Good
    else
      let* st := index_list inputs index in
      scan_words rest inputs typed (if negb (Status_eqb st Good) then Bad else flag)
  end.

(** [typed] after the loop and the final [append]. *)
Definition typed_of (m : Model) : result (list Status) :=
  let* r := scan_words (range_string (chars m)) (inputs m) [] Good in
  Ok (fst r ++ [snd r])%list.

(** The second loop: [(length_typed_chars, length_typed_words)]. *)
Fixpoint count_typed (typed : list Status) (index : Z) (words : list string)
    (length_typed_chars length_typed_words : Z) : result (Z * Z) :=
  match typed with
  | [] => Ok (length_typed_chars, length_typed_words)
  | status :: rest =>
    if Status_eqb status Good then
      let* w := index_list words index in
      count_typed rest (index + 1) words (length_typed_chars + len w) (length_typed_words + 1)
    else count_typed rest (index + 1) words length_typed_chars length_typed_words
  end.

(** [(length_typed_chars, length_typed_words)] after the first two loops. *)
Definition counts_of (m : Model) : result (Z * Z) :=
  let* typed := typed_of m in
  count_typed typed 0 (words m) 0 0.

(** The third loop, [for index := range m.current], over [n] indices from [index]. *)
Fixpoint sum_accuracy (n : nat) (index : Z) (inputs : list Status) (accuracy : float)
    : result float :=
  match n with
  | O => Ok accuracy
  | S k =>
    let* st := index_list inputs index in
    sum_accuracy k (index + 1) inputs (accuracy + float_of_Z (Status_int st))%float
  end.

(** The arithmetic the statistics are written in: [float64] in the program;
    the same expressions can be read over the rationals. *)
Record arith (T : Type) : Type := mk_arith {
  of_int : Z -> T;
  mul : T -> T -> T;
  div : T -> T -> T
}.
Arguments of_int {T} _ _.
Arguments mul {T} _ _ _.
Arguments div {T} _ _ _.

Definition float64 : arith float :=
  {| of_int := float_of_Z; mul := PrimFloat.mul; div := PrimFloat.div |}.

Definition rational : arith Q :=
  {| of_int := inject_Z; mul := Qmult; div := Qdiv |}.

(** [float64(length_typed_chars) / (5 * minutes)] *)
Definition wpm_expr {T : Type} (A : arith T) (length_typed_chars : Z) (minutes : T) : T :=
  div A (of_int A length_typed_chars) (mul A (of_int A 5) minutes).

Definition wpm_of (length_typed_chars : Z) (elapsed : Z) : float :=
  wpm_expr float64 length_typed_chars (Minutes elapsed).

Definition accuracy_of (m : Model) : result float :=
  let* accuracy := sum_accuracy (Z.to_nat (current m)) 0 (inputs m) 0%float in
  Ok (accuracy / float_of_Z (current m))%float.

(** The [fmt.Sprintf] call that builds the summary. *)
Definition Sprintf_stats (length_typed_words : Z) (seconds wpm percent : float) : string :=
  "Correctly typed " ++ decimal length_typed_words ++ " words in "
    ++ FormatFloat 2 seconds ++ "s." ++ nl
    ++ "WPM: " ++ FormatFloat 0 wpm ++ nl
    ++ "Accuracy: " ++ FormatFloat 1 percent ++ "%" ++ nl
    ++ "See https://monkeytype.com/about for details about those stats." ++ nl.

Definition Quit (m : Model) : result Model :=
  let m := set_quitting m true in
  if negb (stopwatch.Running (time m)) then Ok m
  else
    let _ := stopwatch.Stop (time m) in (* the command is dropped *)
    let* counts := counts_of m in
    let '(length_typed_chars, length_typed_words) := counts in
    let wpm := wpm_of length_typed_chars (stopwatch.Elapsed (time m)) in
    let* accuracy := accuracy_of m in
    Ok (set_stats m
          (Sprintf_stats length_typed_words (Seconds (stopwatch.Elapsed (time m)))
             wpm (accuracy * float_of_Z 100)%float)).

(** ** One event: [Update] *)

(** The end of [Update]: the stopwatch sees the message unless a command is
    already pending. *)
Definition finish (m : Model) (cmd : Cmd) (msg : Msg) : result (Model * Cmd) :=
  if is_nil cmd then
    let '(t, cmd') := stopwatch.Update (time m) msg in
    Ok (set_time m t, cmd')
  else Ok (m, cmd).

Definition Update (m : Model) (msg : Msg) : result (Model * Cmd) :=
  match msg with
  | KeyMsg key =>
    if (key =? "ctrl+c")%string || (key =? "esc")%string then
      let* m := Quit m in
      Ok (m, tea_Quit)
    else if Contains ok_inputs key then
      let cmd :=
        if (current m =? 0) && negb (stopwatch.Running (time m))
        then stopwatch.Start (time m) else cmd_nil in
      let* c := index_byte (chars m) (current m) in
      let status := if (string_of_byte c =? key)%string then Good else Bad in
      let* inputs' := store_list (inputs m) (current m) status in
      let m := set_inputs m inputs' in
      if current m =? len (chars m) - 1 then
        let* m := Quit m in
        Ok (m, tea_Quit)
      else finish (set_current m (current m + 1)) cmd msg
    else finish m cmd_nil msg
  | _ => finish m cmd_nil msg
  end.

(** The event loop: messages are handled in turn until [Update] asks to quit. *)
Fixpoint run (m : Model) (msgs : list Msg) : result (Model * Cmd) :=
  match msgs with
  | [] => Ok (m, cmd_nil)
  | msg :: rest =>
    let* r := Update m msg in
    match snd r with
    | tea_Quit => Ok r
    | _ => run (fst r) rest
    end
  end.

(** ** Vocabulary of the statements *)

(** The two abort keys, and the keystrokes [Update] consumes. *)
Definition is_abort (key : string) : bool :=
  (key =? "ctrl+c")%string || (key =? "esc")%string.

Definition accepted (key : string) : bool :=
  negb (is_abort key) && Contains ok_inputs key.

(** The accepted input alphabet: the space and the lowercase letters. *)
Definition in_alphabet (c : ascii) : Prop :=
  byteZ c = 32 \/ 97 <= byteZ c <= 122.

(** The status [Update] gives the byte [c] of the buffer for the key [key]. *)
Definition verdict (c : ascii) (key : string) : Status :=
  if (string_of_byte c =? key)%string then Good else Bad.

(** Space bytes of a string, and its space-delimited segments
    ([strings.Split(s, " ")]). *)
Fixpoint count_space (s : string) : nat :=
  match s with
  | EmptyString => 0%nat
  | String c t => ((if Ascii.eqb c " " then 1 else 0) + count_space t)%nat
  end.

Fixpoint segments (s : string) : list string :=
  match s with
  | EmptyString => [""]
  | String c t =>
    if Ascii.eqb c " " then "" :: segments t
    else
      match segments t with
      | seg :: rest => String c seg :: rest
      | [] => [String c ""]
      end
  end.

(** The word verdicts as the specification words them: the running flag
    starts Good, turns Bad at a non-space character whose status is not
    Good, is emitted and reset at a space, and is emitted once more at the
    end. [status i] is the status of the character at index [i]. *)
Fixpoint word_flags (rs : list (Z * Z)) (status : Z -> Status) (flag : Status)
    : list Status :=
  match rs with
  | [] => [flag]
  | (i, r) :: rest =>
    if r =? 32 then flag :: word_flags rest status Good
    else
      word_flags rest status
        (match status i with Good => flag | _ => Bad end)
  end.

Definition status_at (l : list Status) (i : Z) : Status :=
  match l !! Z.to_nat i with
  | Some s => s
  | None => Neutral
  end.

(** [goodWordCount] and [goodCharCount] as the specification words them:
    the number of Good verdicts, and the sum of the lengths of the original
    words at the positions of the Good verdicts. *)
Fixpoint good_words (typed : list Status) : Z :=
  match typed with
  | [] => 0
  | Good :: rest => 1 + good_words rest
  | _ :: rest => good_words rest
  end.

Fixpoint good_chars (typed : list Status) (words : list string) : Z :=
  match typed, words with
  | Good :: rest, w :: ws => len w + good_chars rest ws
  | _ :: rest, _ :: ws => good_chars rest ws
  | _, _ => 0
  end.

Fixpoint count_status (s : Status) (l : list Status) : nat :=
  match l with
  | [] => 0%nat
  | x :: rest => ((if Status_eqb x s then 1 else 0) + count_status s rest)%nat
  end.

(** The sum the accuracy loop forms over the statuses it visits. *)
Definition status_sum (l : list Status) : float :=
  fold_left (fun acc st => (acc + float_of_Z (Status_int st))%float) l 0%float.

(** A well-formed session: one status per byte of the buffer, the cursor
    on a byte of it, and a word for every verdict the scan can give. *)
Record wf (m : Model) : Prop := mk_wf {
  wf_inputs : List.length (inputs m) = String.length (chars m);
  wf_current : 0 <= current m < len (chars m);
  wf_words : (count_space (chars m) < List.length (words m))%nat
}.

(** The states the event loop can reach from [m0], whatever the messages. *)
Inductive reachable (m0 : Model) : Model -> Prop :=
| reach_init : reachable m0 m0
| reach_step (m : Model) (msg : Msg) (m' : Model) (cmd : Cmd) :
    reachable m0 m -> Update m msg = Ok (m', cmd) -> reachable m0 m'.

(** Sessions on a terminal 80 columns wide whose text fits on a line, where
    the wrapper returns its input. [typing s] is [s] typed key by key, the
    stopwatch's start message arriving after the first key. *)
Definition terminal (fd : Z) : option (Z * Z) := Some (80, 24).
Definition no_wrap (s : string) (limit : Z) : string := s.

Definition keys (s : string) : list Msg :=
  map (fun c => KeyMsg (String c "")) (list_ascii_of_string s).

Definition typing (s : string) : list Msg :=
  match keys s with
  | [] => []
  | k :: rest => k :: StartStopMsg 1 true :: rest
  end.

(** The first [n] ticks of the stopwatch with id 1: the tick that follows
    its start carries tag 0, and each accepted tick asks for the next tag. *)
Definition ticks (n : Z) : list Msg :=
  map (fun k => TickMsg 1 (Z.of_nat k)) (seq 0 (Z.to_nat n)).

Definition session (words : list string) (msgs : list Msg) : result (Model * Cmd) :=
  let* m := NewModel terminal no_wrap words in
  run m msgs.

(** The first [k] bytes of [s] are bytes of 0x80 and above. *)
Fixpoint high_prefix (k : nat) (s : string) : Prop :=
  match k, s with
  | S k', String c t => 128 <= byteZ c /\ high_prefix k' t
  | _, _ => True
  end.

(** The runes of a [range] loop that are spaces. *)
Fixpoint space_runes (rs : list (Z * Z)) : nat :=
  match rs with
  | [] => 0%nat
  | (_, r) :: rest => ((if (r =? 32)%Z then 1 else 0) + space_runes rest)%nat
  end.

(** The session after [Update] has written the status of the byte under
    the cursor, [c], for the key [key]. *)
Definition mark (m : Model) (c : ascii) (key : string) : Model :=
  set_inputs m (<[Z.to_nat (current m) := verdict c key]> (inputs m)).

(** ** Rendering: [Render] and [View] *)

(** The styles [Render] and [View] use: the zero [lipgloss.Style],
    [mainStyle.Underline(true)], [badStyle], [goodStyle] and
    [helpStyle.MarginLeft(2)]. *)
Inductive Style : Type :=
| zero_Style
| mainStyle_Underline
| badStyle
| goodStyle
| helpStyle_MarginLeft (n : Z).

(** The style of the character at [index]: the cursor's underline, replaced
    by red or green once the character has a status. *)
Definition style_at (m : Model) (index : Z) : result Style :=
  let style := if index =? current m then mainStyle_Underline else zero_Style in
  let* st := index_list (inputs m) index in
  Ok match st with
     | Bad => badStyle
     | Good => goodStyle
     | Neutral => style
     end.

Section Rendering.

(** [Style.Render] belongs to the styling library: [lipgloss_Render style s]
    is [s] with the escape sequences of [style] around it. *)
Variable lipgloss_Render : Style -> string -> string.

(** The loop of [Render]; [rendered] is the source's [result]. *)
Fixpoint Render_loop (rs : list (Z * Z)) (m : Model) (rendered : string)
    : result string :=
  match rs with
  | [] => Ok rendered
  | (index, char) :: rest =>
    let* style := style_at m index in
    Render_loop rest m (rendered ++ lipgloss_Render style (string_of_rune char))
  end.

Definition Render (m : Model) : result string :=
  Render_loop (range_string (chars m)) m "".

(** The middle dot of the help line, U+00B7. *)
Definition middle_dot : string := string_of_rune 183.

Definition View (m : Model) : result string :=
  let* r := Render m in
  if quitting m then Ok (r ++ nl ++ nl ++ stats m)
  else
    Ok (r ++ nl ++ nl
          ++ lipgloss_Render (helpStyle_MarginLeft 2)
               (FormatFloat 2 (Seconds (stopwatch.Elapsed (time m)))
                  ++ "s " ++ middle_dot ++ " esc, ^c: exit" ++ nl)).

End Rendering.

(** [Init] *)
Definition Init (m : Model) : Cmd := cmd_nil.

(** ** Word acquisition: [GetWordsFromFile] and [initialModel] *)

Definition WORD_FILE : string := "google-10000-english-usa-no-swears-medium.txt".

(** [strings.Split(s, sep)] for a separator [sep] of one byte. *)
Fixpoint Split (s : string) (sep : ascii) : list string :=
  match s with
  | EmptyString => [""]
  | String c t =>
    if Ascii.eqb c sep then "" :: Split t sep
    else
      match Split t sep with
      | piece :: rest => String c piece :: rest
      | [] => [String c ""]
      end
  end.

(** [l[:hi]] on a slice whose capacity is its length, as [strings.Split]
    returns it. *)
Definition slice_to {A : Type} (l : list A) (hi : Z) : result (list A) :=
  if (0 <=? hi) && (hi <=? Z.of_nat (List.length l)) then Ok (take (Z.to_nat hi) l)
  else Panic "slice bounds out of range".

Section Words.

(** Outside the repository: [os_ReadFile name] is the content of the file,
    [None] when the call returns an error; [rand_Shuffle l] is [l] after
    [rand.Shuffle] has swapped its elements in place. *)
Variable os_ReadFile : string -> option string.
Variable rand_Shuffle : list string -> list string.
Variable term_GetSize : Z -> option (Z * Z).
Variable wordwrap_String : string -> Z -> string.

Definition GetWordsFromFile : result (list string) :=
  match os_ReadFile WORD_FILE with
  | None => Panic "Couldn't read word file."
  | Some content_b =>
    let lines := Split content_b (ascii_of_nat 10) in
    let lines := rand_Shuffle lines in
    slice_to lines 10
  end.

Definition initialModel : result Model :=
  let* words := GetWordsFromFile in
  NewModel term_GetSize wordwrap_String words.

End Words.

(** ** Vocabulary of further statements *)

(** The cursor is the boundary between the decided and the undecided
    statuses: every status before it is Good or Bad, every status after it
    is Neutral, and so is the one under it while the session is not finished. *)
Definition boundary (m : Model) : Prop :=
  forall (i : nat) (st : Status),
    inputs m !! i = Some st ->
    (Z.of_nat i < current m -> st <> Neutral) /\
    (current m < Z.of_nat i -> st = Neutral) /\
    (Z.of_nat i = current m -> quitting m = false -> st = Neutral).

(** Only a byte of the alphabet carries the status Good. *)
Definition good_in_alphabet (m : Model) : Prop :=
  forall (i : nat) (c : ascii),
    inputs m !! i = Some Good ->
    String.get i (chars m) = Some c ->
    in_alphabet c.

(** Every byte of [s] is below 0x80. *)
Fixpoint is_ascii (s : string) : bool :=
  match s with
  | EmptyString => true
  | String c t => (byteZ c <? 128) && is_ascii t
  end.

(** The statuses of the words of [s], one list per space-delimited segment:
    [l] holds one status per byte of [s], and the status of a space belongs
    to no word. *)
Fixpoint word_statuses (s : string) (l : list Status) : list (list Status) :=
  match s with
  | EmptyString => [[]]
  | String c t =>
    if Ascii.eqb c " " then [] :: word_statuses t (tail l)
    else
      match word_statuses t (tail l) with
      | w :: rest => (status_at l 0 :: w) :: rest
      | [] => [[status_at l 0]]
      end
  end.

(** A word is Good when each of its characters is. *)
Definition word_verdict (w : list Status) : Status :=
  if forallb (fun st => Status_eqb st Good) w then Good else Bad.

(** The sum of the lengths of the words. *)
Fixpoint total_len (ws : list string) : Z :=
  match ws with
  | [] => 0
  | w :: rest => len w + total_len rest
  end.

(** The bytes of [s] equal to [sep]. *)
Fixpoint count_byte (sep : ascii) (s : string) : nat :=
  match s with
  | EmptyString => 0%nat
  | String c t => ((if Ascii.eqb c sep then 1 else 0) + count_byte sep t)%nat
  end.

(** The plain renderer: no escape sequences, as on a terminal without
    colours. *)
Definition plain (style : Style) (s : string) : string := s.

(** ** The word-wrapper

    [wordwrap.String] of the reflow library with the writer [NewModel] gets
    from it: line breaks kept, the hyphen a breakpoint. The model is for
    text of ASCII characters, each one byte, where a printable character is
    one column wide; [9] to [13] and [32] are the white space below 0x80. *)
Module wordwrap.

Record WordWrap : Type := mk {
  Limit : Z;
  buf : string;
  space : string;
  word : string;
  lineLen : Z;
  ansi : bool
}.

Definition NewWriter (limit : Z) : WordWrap :=
  {| Limit := limit; buf := ""; space := ""; word := ""; lineLen := 0; ansi := false |}.

Definition IsSpace (c : Z) : bool := ((9 <=? c) && (c <=? 13)) || (c =? 32).

(** The byte that ends an escape sequence. *)
Definition IsTerminator (c : Z) : bool :=
  ((64 <=? c) && (c <=? 90)) || ((97 <=? c) && (c <=? 122)).

(** The columns a character takes: none for a control character. *)
Definition RuneWidth (c : Z) : Z := if (32 <=? c) && (c <? 127) then 1 else 0.

(** [PrintableRuneWidth]: the columns of [s], escape sequences left out. *)
Fixpoint width_from (in_ansi : bool) (s : string) : Z :=
  match s with
  | EmptyString => 0
  | String b t =>
    let c := byteZ b in
    if c =? 27 then width_from true t
    else if in_ansi then width_from (negb (IsTerminator c)) t
    else RuneWidth c + width_from false t
  end.

Definition PrintableRuneWidth (s : string) : Z := width_from false s.

Definition addSpace (w : WordWrap) : WordWrap :=
  {| Limit := Limit w; buf := buf w ++ space w; space := ""; word := word w;
     lineLen := lineLen w + len (space w); ansi := ansi w |}.

Definition addWord (w : WordWrap) : WordWrap :=
  if 0 <? len (word w) then
    let w := addSpace w in
    {| Limit := Limit w; buf := buf w ++ word w; space := space w; word := "";
       lineLen := lineLen w + PrintableRuneWidth (word w); ansi := ansi w |}
  else w.

Definition addNewLine (w : WordWrap) : WordWrap :=
  {| Limit := Limit w; buf := buf w ++ nl; space := ""; word := word w;
     lineLen := 0; ansi := ansi w |}.

(** The body of the loop of [Write], for the character [b]. *)
Definition write_rune (w : WordWrap) (b : ascii) : WordWrap :=
  let c := byteZ b in
  if c =? 27 then
    {| Limit := Limit w; buf := buf w; space := space w; word := word w ++ String b "";
       lineLen := lineLen w; ansi := true |}
  else if ansi w then
    {| Limit := Limit w; buf := buf w; space := space w; word := word w ++ String b "";
       lineLen := lineLen w; ansi := negb (IsTerminator c) |}
  else if c =? 10 then
    let w :=
      if len (word w) =? 0 then
        if Limit w <? lineLen w + len (space w) then
          {| Limit := Limit w; buf := buf w; space := ""; word := word w;
             lineLen := 0; ansi := ansi w |}
        else
          {| Limit := Limit w; buf := buf w ++ space w; space := ""; word := word w;
             lineLen := lineLen w; ansi := ansi w |}
      else w in
    addNewLine (addWord w)
  else if IsSpace c then
    let w := addWord w in
    {| Limit := Limit w; buf := buf w; space := space w ++ String b ""; word := word w;
       lineLen := lineLen w; ansi := ansi w |}
  else if c =? 45 then
    let w := addWord (addSpace w) in
    {| Limit := Limit w; buf := buf w ++ String b ""; space := space w; word := word w;
       lineLen := lineLen w; ansi := ansi w |}
  else
    let w :=
      {| Limit := Limit w; buf := buf w; space := space w; word := word w ++ String b "";
         lineLen := lineLen w; ansi := ansi w |} in
    if (Limit w <? lineLen w + len (space w) + PrintableRuneWidth (word w))
       && (PrintableRuneWidth (word w) <? Limit w)
    then addNewLine w else w.

Definition Write (w : WordWrap) (b : string) : WordWrap :=
  if Limit w =? 0 then
    {| Limit := Limit w; buf := buf w ++ b; space := space w; word := word w;
       lineLen := lineLen w; ansi := ansi w |}
  else fold_left write_rune (list_ascii_of_string b) w.

Definition Close (w : WordWrap) : WordWrap := addWord w.

Definition String (s : string) (limit : Z) : string :=
  buf (Close (Write (NewWriter limit) s)).

End wordwrap.

(** Sessions on a terminal [columns] wide, with the word-wrapper at work. *)
Definition columns_wide (columns : Z) (fd : Z) : option (Z * Z) := Some (columns, 24).

Definition wrapped_session (columns : Z) (words : list string) (msgs : list Msg)
    : result (Model * Cmd) :=
  let* m := NewModel (columns_wide columns) wordwrap.String words in
  run m msgs.

(** The keys the terminal library names with lowercase letters only. Its
    [KeyMsg.String] gives a character key as its characters and any other
    key by its name; the names not listed here hold a sign or a digit
    (such as "shift+tab", "ctrl+a" or "f1"). *)
Definition named_keys : list string :=
  ["enter"; "tab"; "backspace"; "delete"; "insert"; "up"; "down"; "left"; "right";
   "home"; "end"; "pgup"; "pgdown"; "esc"].

(** * Properties of the embedding *)

(** ** Bytes and runes *)

Lemma byteZ_range (c : ascii) : 0 <= byteZ c < 256.
Proof.
  unfold byteZ. pose proof (N_ascii_bounded c) as H. lia.
Qed.

Lemma byteZ_space (c : ascii) : Ascii.eqb c " " = (byteZ c =? 32).
Proof.
  destruct (Ascii.eqb_spec c " ") as [->|Hne].
  - reflexivity.
  - symmetry. apply Z.eqb_neq. intros H. apply Hne.
    rewrite <- (ascii_N_embedding c), <- (ascii_N_embedding " ").
    f_equal. unfold byteZ in H. change (N_of_ascii " ") with 32%N. lia.
Qed.

Lemma byte_of_byteZ (c : ascii) : byte_of (byteZ c) = c.
Proof.
  unfold byte_of, byteZ. rewrite N2Z.id. apply ascii_N_embedding.
Qed.

Lemma byteZ_byte_of (z : Z) : 0 <= z < 256 -> byteZ (byte_of z) = z.
Proof.
  intros H. unfold byte_of, byteZ. rewrite N_ascii_embedding; lia.
Qed.

Lemma string_of_rune_space (r : Z) : (string_of_rune r =? " ")%string = (r =? 32).
Proof.
  unfold string_of_rune.
  destruct ((0 <=? r) && (r <? 128)) eqn:H1.
  - apply andb_true_iff in H1 as [Ha Hb]. apply Z.leb_le in Ha. apply Z.ltb_lt in Hb.
    destruct (Z.eqb_spec r 32) as [->|Hne]; [reflexivity|].
    apply String.eqb_neq. intros Heq. injection Heq as Heq. apply Hne.
    rewrite <- (byteZ_byte_of r) by lia. rewrite Heq. reflexivity.
  - assert (r <> 32) as Hne.
    { intros ->. discriminate H1. }
    apply Z.eqb_neq in Hne. rewrite Hne.
    repeat match goal with |- context [if ?b then _ else _] => destruct b end;
      apply String.eqb_neq; congruence.
Qed.

Lemma land_low (a : Z) (n : Z) : 0 <= n -> Z.land a (Z.ones n) = a mod 2 ^ n.
Proof. intros H. apply Z.land_ones. exact H. Qed.

Lemma shr6_small (y : Z) : 0 <= y < 64 -> Z.shiftr y 6 = 0.
Proof.
  intros H. rewrite Z.shiftr_div_pow2 by lia. apply Z.div_small. simpl. lia.
Qed.

Lemma rune2_not_space (x y : Z) :
  x <> 0 -> 0 <= y < 64 -> Z.lor (Z.shiftl x 6) y <> 32.
Proof.
  intros Hx Hy H. apply (f_equal (fun z => Z.shiftr z 6)) in H.
  rewrite Z.shiftr_lor, Z.shiftr_shiftl_l, (shr6_small y) in H by lia.
  change (Z.shiftr 32 6) with 0 in H. simpl in H.
  rewrite Z.lor_0_r in H. contradiction.
Qed.

Lemma rune3_not_space (x y z : Z) :
  x <> 0 \/ y <> 0 -> 0 <= z < 64 ->
  Z.lor (Z.shiftl x 12) (Z.lor (Z.shiftl y 6) z) <> 32.
Proof.
  intros Hxy Hz H. apply (f_equal (fun z => Z.shiftr z 6)) in H.
  rewrite !Z.shiftr_lor, !Z.shiftr_shiftl_l, (shr6_small z) in H by lia.
  change (Z.shiftr 32 6) with 0 in H. simpl in H.
  rewrite Z.lor_0_r in H.
  apply Z.lor_eq_0_iff in H as [H1 H2].
  apply Z.shiftl_eq_0_iff in H1; [|lia]. tauto.
Qed.

Lemma rune4_not_space (x y z w : Z) :
  x <> 0 \/ y <> 0 -> 0 <= w < 64 ->
  Z.lor (Z.shiftl x 18) (Z.lor (Z.shiftl y 12) (Z.lor (Z.shiftl z 6) w)) <> 32.
Proof.
  intros Hxy Hw H. apply (f_equal (fun z => Z.shiftr z 6)) in H.
  rewrite !Z.shiftr_lor, !Z.shiftr_shiftl_l, (shr6_small w) in H by lia.
  change (Z.shiftr 32 6) with 0 in H. simpl in H.
  rewrite Z.lor_0_r in H.
  apply Z.lor_eq_0_iff in H as [H1 H2].
  apply Z.lor_eq_0_iff in H2 as [H2 H3].
  apply Z.shiftl_eq_0_iff in H1; [|lia].
  apply Z.shiftl_eq_0_iff in H2; [|lia]. tauto.
Qed.

Lemma land63 (a : Z) : Z.land a 63 = a mod 64.
Proof. change 63 with (Z.ones 6). apply land_low. lia. Qed.
Lemma land31 (a : Z) : Z.land a 31 = a mod 32.
Proof. change 31 with (Z.ones 5). apply land_low. lia. Qed.
Lemma land15 (a : Z) : Z.land a 15 = a mod 16.
Proof. change 15 with (Z.ones 4). apply land_low. lia. Qed.
Lemma land7 (a : Z) : Z.land a 7 = a mod 8.
Proof. change 7 with (Z.ones 3). apply land_low. lia. Qed.

Lemma first_spec (s0 : Z) (sz : nat) (lo hi : Z) :
  first s0 = Some (sz, lo, hi) ->
  128 <= lo /\ hi <= 191 /\
  ((sz = 2%nat /\ 194 <= s0 <= 223) \/
   (sz = 3%nat /\ 224 <= s0 <= 239 /\ (s0 = 224 -> lo = 160)) \/
   (sz = 4%nat /\ 240 <= s0 <= 244 /\ (s0 = 240 -> lo = 144))).
Proof.
  unfold first.
  repeat match goal with
         | |- context [if ?b then _ else _] => destruct b eqn:?
         end; intros H; inversion H; subst; clear H; lia.
Qed.

Lemma decode_spec (c : ascii) (t : string) (r : Z) (size : nat) :
  DecodeRuneInString (String c t) = (r, size) ->
  (1 <= size)%nat /\ high_prefix (Nat.pred size) t /\ (r =? 32) = (byteZ c =? 32).
Proof.
  unfold DecodeRuneInString.
  destruct (byteZ c <? 128) eqn:Hascii.
  { intros H. inversion H; subst. simpl. auto. }
  apply Z.ltb_ge in Hascii.
  assert ((byteZ c =? 32) = false) as Hc by (apply Z.eqb_neq; lia).
  rewrite Hc.
  destruct (first (byteZ c)) as [[[sz lo] hi]|] eqn:Hfirst.
  2:{ intros H. inversion H; subst. simpl. auto. }
  apply first_spec in Hfirst as (Hlo & Hhi & Hsz).
  destruct (String.length (String c t) <? sz)%nat eqn:Hlen.
  { intros H. inversion H; subst. simpl. auto. }
  destruct t as [|c1 [|c2 [|c3 t3]]];
    repeat match goal with
           | |- context [if ?b then _ else _] => destruct b eqn:?
           | |- context [let '(_, _) := ?p in _] => simpl
           end; intros H; inversion H; subst; clear H; simpl;
    repeat match goal with
           | H : (_ || _) = false |- _ => apply orb_false_iff in H as [? ?]
           | H : negb _ = false |- _ => apply negb_false_iff in H
           | H : is_cont _ = true |- _ => unfold is_cont in H; apply andb_true_iff in H as [? ?]
           | H : (_ <? _) = false |- _ => apply Z.ltb_ge in H
           | H : (_ <=? _) = true |- _ => apply Z.leb_le in H
           | H : (_ <=? _)%nat = true |- _ => apply Nat.leb_le in H
           | H : (_ <=? _)%nat = false |- _ => apply Nat.leb_gt in H
           | H : (_ <? _)%nat = false |- _ => apply Nat.ltb_ge in H
           end;
    simpl String.length in *;
    repeat split; try lia; try reflexivity;
    try (apply Z.eqb_neq;
         rewrite ?land63, ?land31, ?land15, ?land7;
         pose proof (byteZ_range c);
         solve [ apply rune4_not_space; Z.to_euclidean_division_equations; lia
               | apply rune3_not_space; Z.to_euclidean_division_equations; lia
               | apply rune2_not_space; Z.to_euclidean_division_equations; lia ]).
Qed.

(** ** The [range] loop *)

Lemma high_byte_not_space (c : ascii) : 128 <= byteZ c -> Ascii.eqb c " " = false.
Proof. intros H. rewrite byteZ_space. apply Z.eqb_neq. lia. Qed.

Lemma range_from_decode (index : Z) (c : ascii) (t : string) :
  range_from 0 index (String c t)
  = (index, fst (DecodeRuneInString (String c t)))
      :: range_from (Nat.pred (snd (DecodeRuneInString (String c t)))) (index + 1) t.
Proof.
  cbn [range_from]. destruct (DecodeRuneInString (String c t)). reflexivity.
Qed.

Lemma range_spaces (s : string) :
  forall skip index, high_prefix skip s ->
    space_runes (range_from skip index s) = count_space s.
Proof.
  induction s as [|c t IH]; intros skip index Hp; [reflexivity|].
  destruct skip as [|k].
  - rewrite range_from_decode.
    destruct (DecodeRuneInString (String c t)) as [r size] eqn:Hd.
    apply decode_spec in Hd as (_ & Hhigh & Hr).
    cbn [space_runes count_space fst snd].
    rewrite Hr, <- byteZ_space, (IH _ _ Hhigh). reflexivity.
  - destruct Hp as [Hc Hp]. cbn [range_from count_space].
    rewrite (high_byte_not_space c Hc), (IH _ _ Hp). reflexivity.
Qed.

Lemma range_indices (s : string) :
  forall skip index,
    Forall (fun p => index <= fst p < index + len s) (range_from skip index s).
Proof.
  induction s as [|c t IH]; intros skip index; [constructor|].
  assert (len (String c t) = len t + 1) as Hlen by (unfold len; simpl String.length; lia).
  assert (0 <= len t) as Hpos by (unfold len; lia).
  assert (forall k, Forall (fun p => index <= fst p < index + len (String c t))
            (range_from k (index + 1) t)) as Htail.
  { intros k. eapply Forall_impl; [apply IH|].
    intros p Hp. simpl in Hp. lia. }
  destruct skip as [|k].
  - rewrite range_from_decode. constructor; [simpl; lia|]. apply Htail.
  - cbn [range_from]. apply Htail.
Qed.

Lemma range_string_spaces (s : string) : space_runes (range_string s) = count_space s.
Proof. apply range_spaces. exact I. Qed.

Lemma range_string_indices (s : string) :
  Forall (fun p => 0 <= fst p < len s) (range_string s).
Proof. apply (range_indices s 0%nat 0). Qed.

(** ** Slices *)

Lemma index_list_Ok {A : Type} (l : list A) (i : Z) :
  0 <= i < Z.of_nat (List.length l) ->
  exists x, l !! Z.to_nat i = Some x /\ index_list l i = Ok x.
Proof.
  intros H. unfold index_list.
  assert ((0 <=? i) && (i <? Z.of_nat (List.length l)) = true) as ->
    by (apply andb_true_iff; split; [apply Z.leb_le|apply Z.ltb_lt]; lia).
  destruct (l !! Z.to_nat i) as [x|] eqn:Hl; [eauto|].
  apply lookup_ge_None in Hl. lia.
Qed.

Lemma index_list_inv {A : Type} (l : list A) (i : Z) (x : A) :
  index_list l i = Ok x ->
  0 <= i < Z.of_nat (List.length l) /\ l !! Z.to_nat i = Some x.
Proof.
  unfold index_list.
  destruct ((0 <=? i) && (i <? Z.of_nat (List.length l))) eqn:Hb; [|discriminate].
  apply andb_true_iff in Hb as [H1 H2]. apply Z.leb_le in H1. apply Z.ltb_lt in H2.
  destruct (l !! Z.to_nat i) eqn:Hl; [|discriminate].
  intros H. inversion H; subst. auto.
Qed.

Lemma store_list_Ok {A : Type} (l : list A) (i : Z) (x : A) :
  0 <= i < Z.of_nat (List.length l) ->
  store_list l i x = Ok (<[Z.to_nat i := x]> l).
Proof.
  intros H. unfold store_list.
  assert ((0 <=? i) && (i <? Z.of_nat (List.length l)) = true) as ->
    by (apply andb_true_iff; split; [apply Z.leb_le|apply Z.ltb_lt]; lia).
  reflexivity.
Qed.

Lemma store_list_inv {A : Type} (l l' : list A) (i : Z) (x : A) :
  store_list l i x = Ok l' ->
  0 <= i < Z.of_nat (List.length l) /\ l' = <[Z.to_nat i := x]> l.
Proof.
  unfold store_list.
  destruct ((0 <=? i) && (i <? Z.of_nat (List.length l))) eqn:Hb; [|discriminate].
  apply andb_true_iff in Hb as [H1 H2]. apply Z.leb_le in H1. apply Z.ltb_lt in H2.
  intros H. inversion H; subst. auto.
Qed.

Lemma index_byte_Ok (s : string) (i : Z) :
  0 <= i < len s -> exists c, index_byte s i = Ok c.
Proof.
  intros H. unfold index_byte.
  assert ((0 <=? i) && (i <? len s) = true) as ->
    by (apply andb_true_iff; split; [apply Z.leb_le|apply Z.ltb_lt]; lia).
  destruct (String.get (Z.to_nat i) s) as [c|] eqn:Hg; [eauto|].
  exfalso. unfold len in H.
  assert (Z.to_nat i < String.length s)%nat as Hlt by lia.
  revert Hg Hlt. generalize (Z.to_nat i). clear.
  induction s as [|c t IH]; intros n Hg Hlt; simpl in *; [lia|].
  destruct n; [discriminate|]. apply (IH n Hg). lia.
Qed.

Lemma index_byte_inv (s : string) (i : Z) (c : ascii) :
  index_byte s i = Ok c -> 0 <= i < len s.
Proof.
  unfold index_byte.
  destruct ((0 <=? i) && (i <? len s)) eqn:Hb; [|discriminate].
  apply andb_true_iff in Hb as [H1 H2]. apply Z.leb_le in H1. apply Z.ltb_lt in H2.
  auto.
Qed.

(** ** The three loops of [Quit] *)

Lemma status_at_index (l : list Status) (i : Z) :
  0 <= i < Z.of_nat (List.length l) -> index_list l i = Ok (status_at l i).
Proof.
  intros H. destruct (index_list_Ok l i H) as (x & Hx & ->).
  unfold status_at. rewrite Hx. reflexivity.
Qed.

Lemma scan_words_spec (rs : list (Z * Z)) (inputs : list Status) :
  Forall (fun p => 0 <= fst p < Z.of_nat (List.length inputs)) rs ->
  forall typed flag,
  exists typed' flag',
    scan_words rs inputs typed flag = Ok (typed', flag') /\
    (typed' ++ [flag'] = typed ++ word_flags rs (status_at inputs) flag)%list.
Proof.
  induction 1 as [|[i r] rest Hi Hrest IH]; intros typed flag; simpl.
  - eauto.
  - rewrite string_of_rune_space. destruct (r =? 32).
    + destruct (IH (typed ++ [flag])%list Good) as (t' & f' & Hs & Heq).
      exists t', f'. split; [exact Hs|]. rewrite Heq, <- app_assoc. reflexivity.
    + simpl in Hi. rewrite (status_at_index _ _ Hi). simpl.
      destruct (IH typed (if negb (Status_eqb (status_at inputs i) Good) then Bad else flag))
        as (t' & f' & Hs & Heq).
      exists t', f'. split; [exact Hs|]. rewrite Heq.
      destruct (status_at inputs i); reflexivity.
Qed.

Lemma typed_of_spec (m : Model) :
  List.length (inputs m) = String.length (chars m) ->
  typed_of m = Ok (word_flags (range_string (chars m)) (status_at (inputs m)) Good).
Proof.
  intros Hlen. unfold typed_of.
  destruct (scan_words_spec (range_string (chars m)) (inputs m)) with (typed := @nil Status) (flag := Good)
    as (t' & f' & Hs & Heq).
  { eapply Forall_impl; [apply range_string_indices|].
    intros p Hp. simpl in Hp. unfold len in Hp. lia. }
  rewrite Hs. simpl. rewrite Heq. reflexivity.
Qed.

Lemma word_flags_length (rs : list (Z * Z)) (status : Z -> Status) :
  forall flag, List.length (word_flags rs status flag) = S (space_runes rs).
Proof.
  induction rs as [|[i r] rest IH]; intros flag; simpl; [reflexivity|].
  destruct (r =? 32); simpl; rewrite IH; reflexivity.
Qed.

Lemma word_flags_decided (rs : list (Z * Z)) (status : Z -> Status) :
  forall flag, flag <> Neutral ->
    Forall (fun v => v = Good \/ v = Bad) (word_flags rs status flag).
Proof.
  induction rs as [|[i r] rest IH]; intros flag Hf; simpl.
  - constructor; [destruct flag; tauto|constructor].
  - destruct (r =? 32).
    + constructor; [destruct flag; tauto|]. apply IH. discriminate.
    + apply IH. destruct (status i); [discriminate|exact Hf|discriminate].
Qed.

Lemma count_typed_spec (typed : list Status) (words : list string) :
  forall (k : nat) (c w : Z),
    (k + List.length typed <= List.length words)%nat ->
    count_typed typed (Z.of_nat k) words c w
    = Ok (c + good_chars typed (drop k words), w + good_words typed).
Proof.
  induction typed as [|st rest IH]; intros k c w Hlen; simpl.
  - rewrite !Z.add_0_r. reflexivity.
  - simpl in Hlen.
    destruct (drop k words) as [|x ws] eqn:Hdrop.
    { apply (f_equal List.length) in Hdrop. rewrite length_drop in Hdrop. simpl in Hdrop. lia. }
    assert (drop (S k) words = ws) as Hdrop'.
    { replace (S k) with (k + 1)%nat by lia. rewrite <- drop_drop, Hdrop. reflexivity. }
    assert (words !! k = Some x) as Hk.
    { rewrite <- (Nat.add_0_r k), <- lookup_drop, Hdrop. reflexivity. }
    replace (Z.of_nat k + 1) with (Z.of_nat (S k)) by lia.
    destruct st; simpl.
    + rewrite IH by lia. rewrite Hdrop'. reflexivity.
    + destruct (index_list_Ok words (Z.of_nat k)) as (x' & Hx' & ->); [lia|].
      rewrite Nat2Z.id, Hk in Hx'. inversion Hx'; subst x'. simpl.
      rewrite IH by lia. rewrite Hdrop'. do 2 f_equal; lia.
    + rewrite IH by lia. rewrite Hdrop'. reflexivity.
Qed.

Lemma sum_accuracy_spec (inputs : list Status) :
  forall (n k : nat) (acc : float),
    (k + n <= List.length inputs)%nat ->
    sum_accuracy n (Z.of_nat k) inputs acc
    = Ok (fold_left (fun a st => (a + float_of_Z (Status_int st))%float)
            (take n (drop k inputs)) acc).
Proof.
  induction n as [|n IH]; intros k acc Hlen; simpl.
  - reflexivity.
  - destruct (index_list_Ok inputs (Z.of_nat k)) as (x & Hx & ->); [lia|].
    rewrite Nat2Z.id in Hx. simpl.
    replace (Z.of_nat k + 1) with (Z.of_nat (S k)) by lia.
    rewrite IH by lia.
    destruct (drop k inputs) as [|y ys] eqn:Hdrop.
    { apply (f_equal List.length) in Hdrop. rewrite length_drop in Hdrop. simpl in Hdrop. lia. }
    assert (y = x) as ->.
    { rewrite <- (Nat.add_0_r k), <- lookup_drop, Hdrop in Hx. simpl in Hx. congruence. }
    assert (drop (S k) inputs = ys) as ->.
    { replace (S k) with (k + 1)%nat by lia. rewrite <- drop_drop, Hdrop. reflexivity. }
    reflexivity.
Qed.

(** ** [Quit] *)

Lemma set_time_same (m : Model) : set_time m (time m) = m.
Proof. destruct m; reflexivity. Qed.

Lemma Quit_not_running (m : Model) :
  stopwatch.Running (time m) = false -> Quit m = Ok (set_quitting m true).
Proof. intros H. unfold Quit. simpl. rewrite H. reflexivity. Qed.

(** What [Quit] leaves alone, and the flag it sets. *)
Lemma Quit_frame (m m' : Model) :
  Quit m = Ok m' ->
  chars m' = chars m /\ words m' = words m /\ inputs m' = inputs m /\
  current m' = current m /\ time m' = time m /\ quitting m' = true.
Proof.
  unfold Quit. simpl.
  destruct (negb (stopwatch.Running (time m))).
  { intros H. inversion H; subst. simpl. auto 10. }
  destruct (counts_of _) as [[c w]|]; [|discriminate]. cbn [bind].
  destruct (accuracy_of _) as [a|]; [|discriminate]. cbn [bind].
  intros H. inversion H; subst. simpl. auto 10.
Qed.

Lemma Sprintf_stats_nonempty (n : Z) (s w p : float) : Sprintf_stats n s w p <> "".
Proof. unfold Sprintf_stats. cbn [append]. discriminate. Qed.

Lemma Quit_stats (m m' : Model) :
  Quit m = Ok m' ->
  if stopwatch.Running (time m) then stats m' <> "" else stats m' = stats m.
Proof.
  unfold Quit. simpl.
  destruct (stopwatch.Running (time m)); simpl.
  2:{ intros H. inversion H; subst. reflexivity. }
  destruct (counts_of _) as [[c w]|]; [|discriminate]. cbn [bind].
  destruct (accuracy_of _) as [a|]; [|discriminate]. cbn [bind].
  intros H. inversion H; subst. cbn [stats set_stats]. apply Sprintf_stats_nonempty.
Qed.

Lemma typed_of_length (m : Model) :
  List.length (inputs m) = String.length (chars m) ->
  exists typed, typed_of m = Ok typed /\
    List.length typed = S (count_space (chars m)) /\
    Forall (fun v => v = Good \/ v = Bad) typed.
Proof.
  intros H. eexists. split; [apply typed_of_spec; exact H|]. split.
  - rewrite word_flags_length, range_string_spaces. reflexivity.
  - apply word_flags_decided. discriminate.
Qed.

(** [Quit] returns on every state with a status per byte, a word per
    verdict and a cursor inside the statuses. *)
Lemma Quit_total (m : Model) :
  List.length (inputs m) = String.length (chars m) ->
  (count_space (chars m) < List.length (words m))%nat ->
  current m <= len (chars m) ->
  exists m', Quit m = Ok m'.
Proof.
  intros Hin Hw Hc. unfold Quit.
  destruct (negb (stopwatch.Running (time (set_quitting m true)))); [eauto|].
  unfold counts_of.
  destruct (typed_of_length (set_quitting m true) Hin) as (typed & -> & Hlen & _).
  cbn [bind]. simpl in Hlen.
  rewrite (count_typed_spec typed (words (set_quitting m true)) 0%nat) by (simpl; lia).
  cbn [bind].
  unfold accuracy_of.
  rewrite (sum_accuracy_spec _ _ 0%nat) by (simpl; unfold len in Hc; lia).
  cbn [bind]. eauto.
Qed.

(** Ending twice is ending once. *)
Lemma Quit_again (m m' : Model) : Quit m = Ok m' -> Quit m' = Ok m'.
Proof.
  destruct m as [cs ws ins cur q t st].
  unfold Quit, counts_of, typed_of, accuracy_of.
  cbn [chars words inputs current quitting time stats set_quitting set_stats].
  destruct (stopwatch.Running t) eqn:Hr; cbn [negb].
  2:{ intros H. inversion H; subst.
      cbn [chars words inputs current quitting time stats set_quitting set_stats].
      rewrite Hr. reflexivity. }
  destruct (scan_words _ _ _ _) as [r|] eqn:Hscan; [|discriminate]. cbn [bind].
  destruct (count_typed _ _ _ _ _) as [[c w]|] eqn:Hcount; [|discriminate]. cbn [bind].
  destruct (sum_accuracy _ _ _ _) as [a|] eqn:Hacc; [|discriminate]. cbn [bind].
  intros H. inversion H; subst.
  cbn [chars words inputs current quitting time stats set_quitting set_stats].
  rewrite Hr, Hscan. cbn [negb bind]. rewrite Hcount. cbn [bind]. rewrite Hacc.
  reflexivity.
Qed.

(** ** [Update] *)

Lemma stopwatch_Update_key (t : stopwatch.Model) (key : string) :
  stopwatch.Update t (KeyMsg key) = (t, cmd_nil).
Proof. reflexivity. Qed.

(** [Update] on a key, branch by branch. *)
Lemma Update_key (m : Model) (key : string) :
  Update m (KeyMsg key) =
  if is_abort key then
    let* m' := Quit m in Ok (m', tea_Quit)
  else if Contains ok_inputs key then
    let* c := index_byte (chars m) (current m) in
    let* inputs' := store_list (inputs m) (current m) (verdict c key) in
    if current m =? len (chars m) - 1 then
      let* m' := Quit (set_inputs m inputs') in Ok (m', tea_Quit)
    else
      Ok (set_current (set_inputs m inputs') (current m + 1),
          if (current m =? 0) && negb (stopwatch.Running (time m))
          then stopwatch.Start (time m) else cmd_nil)
  else Ok (m, cmd_nil).
Proof.
  unfold Update, is_abort, verdict.
  destruct ((key =? "ctrl+c")%string || (key =? "esc")%string); [reflexivity|].
  destruct (Contains ok_inputs key).
  2:{ unfold finish. cbn [is_nil]. rewrite stopwatch_Update_key, set_time_same. reflexivity. }
  destruct (index_byte (chars m) (current m)) as [c|]; [|reflexivity]. cbn [bind].
  destruct (store_list _ _ _) as [inputs'|]; [|reflexivity]. cbn [bind].
  cbn [chars current set_inputs].
  destruct (current m =? len (chars m) - 1); [reflexivity|].
  unfold finish.
  destruct ((current m =? 0) && negb (stopwatch.Running (time m))).
  - reflexivity.
  - cbn [is_nil]. rewrite stopwatch_Update_key, set_time_same. reflexivity.
Qed.

Lemma Update_not_key (m : Model) (msg : Msg) :
  (forall key, msg <> KeyMsg key) ->
  Update m msg
  = Ok (set_time m (fst (stopwatch.Update (time m) msg)), snd (stopwatch.Update (time m) msg)).
Proof.
  intros H. destruct msg; try (exfalso; eapply H; reflexivity);
    unfold Update, finish; cbn [is_nil];
    destruct (stopwatch.Update (time m) _); reflexivity.
Qed.

Lemma stopwatch_no_quit (t : stopwatch.Model) (msg : Msg) :
  snd (stopwatch.Update t msg) <> tea_Quit.
Proof.
  destruct msg; simpl;
    repeat match goal with |- context [if ?b then _ else _] => destruct b end;
    simpl; discriminate.
Qed.

(** One step of the loop: the buffer and the words stay, the statuses keep
    their number, and the cursor stays or moves one byte forward inside the
    buffer. *)
Lemma Update_step (m m' : Model) (msg : Msg) (cmd : Cmd) :
  Update m msg = Ok (m', cmd) ->
  chars m' = chars m /\ words m' = words m /\
  List.length (inputs m') = List.length (inputs m) /\
  (current m' = current m \/
   (current m' = current m + 1 /\ 0 <= current m /\ current m + 1 < len (chars m))).
Proof.
  destruct msg as [key| | | |].
  2-5: rewrite Update_not_key by discriminate; intros H; inversion H; subst;
       simpl; auto.
  rewrite Update_key.
  destruct (is_abort key).
  { destruct (Quit m) as [m1|] eqn:HQ; [|discriminate]. cbn [bind].
    intros H. inversion H; subst.
    apply Quit_frame in HQ as (-> & -> & -> & -> & _). auto. }
  destruct (Contains ok_inputs key).
  2:{ intros H. inversion H; subst. auto. }
  destruct (index_byte (chars m) (current m)) as [c|] eqn:Hc; [|discriminate].
  apply index_byte_inv in Hc. cbn [bind].
  destruct (store_list _ _ _) as [inputs'|] eqn:Hs; [|discriminate].
  apply store_list_inv in Hs as [Hr ->]. cbn [bind].
  destruct (current m =? len (chars m) - 1) eqn:Hlast.
  - destruct (Quit _) as [m1|] eqn:HQ; [|discriminate]. cbn [bind].
    intros H. inversion H; subst.
    apply Quit_frame in HQ as (-> & -> & -> & -> & _). simpl.
    rewrite length_insert. auto.
  - apply Z.eqb_neq in Hlast. intros H. inversion H; subst. simpl.
    rewrite length_insert. repeat split; auto. right. lia.
Qed.

Lemma Update_wf (m m' : Model) (msg : Msg) (cmd : Cmd) :
  wf m -> Update m msg = Ok (m', cmd) -> wf m'.
Proof.
  intros [Hi Hc Hw] H. apply Update_step in H as (Hch & Hws & Hlen & Hcur).
  constructor; rewrite ?Hch, ?Hws, ?Hlen; auto. lia.
Qed.

(** A well-formed session never panics. *)
Lemma Update_total (m : Model) (msg : Msg) :
  wf m -> exists m' cmd, Update m msg = Ok (m', cmd).
Proof.
  intros [Hi Hc Hw].
  destruct msg as [key| | | |].
  2-5: rewrite Update_not_key by discriminate; eauto.
  rewrite Update_key.
  destruct (is_abort key).
  { destruct (Quit_total m) as [m1 ->]; auto; [lia|]. cbn [bind]. eauto. }
  destruct (Contains ok_inputs key); [|eauto].
  destruct (index_byte_Ok (chars m) (current m) Hc) as [c ->]. cbn [bind].
  rewrite store_list_Ok by (unfold len in Hc; lia). cbn [bind].
  destruct (current m =? len (chars m) - 1); [|eauto].
  destruct (Quit_total (set_inputs m (<[Z.to_nat (current m) := verdict c key]> (inputs m))))
    as [m1 ->]; simpl; rewrite ?length_insert; auto; [lia|].
  cbn [bind]. eauto.
Qed.

Lemma reachable_wf (m0 m : Model) : wf m0 -> reachable m0 m -> wf m.
Proof.
  intros H0. induction 1 as [|m msg m' cmd _ IH Hstep]; [exact H0|].
  eapply Update_wf; eauto.
Qed.

Lemma reachable_frame (m0 m : Model) :
  reachable m0 m ->
  chars m = chars m0 /\ words m = words m0 /\ current m0 <= current m.
Proof.
  induction 1 as [|m msg m' cmd _ (IH1 & IH2 & IH3) Hstep].
  - repeat split; lia.
  - apply Update_step in Hstep as (-> & -> & _ & Hcur). repeat split; auto. lia.
Qed.

(** ** The buffer a word list gives *)

Lemma count_space_app (a b : string) :
  count_space (a ++ b) = (count_space a + count_space b)%nat.
Proof.
  induction a as [|c a IH]; simpl; [reflexivity|]. rewrite IH. lia.
Qed.

Lemma count_space_Join (words : list string) :
  Forall (fun w => count_space w = 0%nat) words ->
  count_space (Join words " ") = Nat.pred (List.length words).
Proof.
  induction 1 as [|w ws Hw Hws IH]; [reflexivity|].
  destruct ws as [|w' ws']; [simpl; exact Hw|].
  change (Join (w :: w' :: ws') " ") with (w ++ " " ++ Join (w' :: ws') " ").
  rewrite !count_space_app, IH, Hw. reflexivity.
Qed.

Lemma segments_length (s : string) : List.length (segments s) = S (count_space s).
Proof.
  induction s as [|c t IH]; [reflexivity|]. simpl.
  destruct (Ascii.eqb c " "); simpl; [rewrite IH; reflexivity|].
  destruct (segments t); simpl in *; lia.
Qed.

Lemma NewModel_inv (gs : Z -> option (Z * Z)) (ww : string -> Z -> string)
    (words : list string) (m : Model) :
  NewModel gs ww words = Ok m ->
  exists w h, gs 0 = Some (w, h) /\
    m = {| chars := ww (Join words " ") w; words := words;
           inputs := replicate (String.length (ww (Join words " ") w)) Neutral;
           current := 0; quitting := false;
           time := stopwatch.NewWithInterval 1 Millisecond; stats := "" |} /\
    0 < len (chars m).
Proof.
  unfold NewModel. destruct (gs 0) as [[w h]|]; [|discriminate].
  destruct (len (ww (Join words " ") w) =? 0) eqn:Hlen; [discriminate|].
  apply Z.eqb_neq in Hlen. intros H. inversion H; subst. simpl.
  exists w, h. repeat split. unfold len in *. lia.
Qed.

Lemma NewModel_wf (gs : Z -> option (Z * Z)) (ww : string -> Z -> string)
    (words : list string) (m : Model) :
  words <> [] ->
  Forall (fun w => count_space w = 0%nat) words ->
  (forall w h, gs 0 = Some (w, h) ->
     (count_space (ww (Join words " ") w) <= count_space (Join words " "))%nat) ->
  NewModel gs ww words = Ok m -> wf m.
Proof.
  intros Hne Hws Hww H. apply NewModel_inv in H as (w & h & Hgs & -> & Hlen).
  specialize (Hww w h Hgs). rewrite count_space_Join in Hww by exact Hws.
  simpl in Hlen. constructor; simpl.
  - apply length_replicate.
  - lia.
  - destruct words; [contradiction|]. simpl in *. lia.
Qed.

(** The cursor of a session stays on a byte of the buffer. *)
Lemma reachable_cursor (m0 m : Model) :
  0 <= current m0 < len (chars m0) -> reachable m0 m ->
  0 <= current m < len (chars m).
Proof.
  intros H0. induction 1 as [|m msg m' cmd _ IH Hstep]; [exact H0|].
  apply Update_step in Hstep as (-> & _ & _ & Hcur). lia.
Qed.

(** Sessions keep one status per byte, whatever their words. *)
Lemma reachable_lengths (gs : Z -> option (Z * Z)) (ww : string -> Z -> string)
    (ws : list string) (m0 m : Model) :
  NewModel gs ww ws = Ok m0 -> reachable m0 m ->
  List.length (inputs m) = String.length (chars m).
Proof.
  intros H0 Hr. apply NewModel_inv in H0 as (w & h & _ & Hm0 & _).
  assert (List.length (inputs m0) = String.length (chars m0)) as Hl0
    by (rewrite Hm0; simpl; apply length_replicate).
  clear Hm0. induction Hr as [|m msg m' cmd _ IH Hstep]; [exact Hl0|].
  apply Update_step in Hstep as (-> & _ & -> & _). exact IH.
Qed.

(** ** Keys outside the alphabet *)

Lemma HasPrefix_In (s p : string) (c : ascii) :
  HasPrefix s p = true -> In c (list_ascii_of_string p) -> In c (list_ascii_of_string s).
Proof.
  revert s. induction p as [|a p IH]; intros s Hp Hin; [contradiction|].
  destruct s as [|b s]; [discriminate|]. simpl in Hp.
  apply andb_true_iff in Hp as [Hab Hp]. apply Ascii.eqb_eq in Hab. subst b.
  destruct Hin as [->|Hin]; [left; reflexivity|right; eauto].
Qed.

Lemma Contains_In (s p : string) (c : ascii) :
  Contains s p = true -> In c (list_ascii_of_string p) -> In c (list_ascii_of_string s).
Proof.
  induction s as [|b s IH]; intros Hc Hin.
  - simpl in Hc. rewrite orb_false_r in Hc. eapply HasPrefix_In; eauto.
  - cbn [Contains] in Hc. apply orb_true_iff in Hc as [Hp|Hc].
    + eapply HasPrefix_In; eauto.
    + right. auto.
Qed.

Lemma ok_inputs_alphabet (c : ascii) :
  In c (list_ascii_of_string ok_inputs) -> in_alphabet c.
Proof.
  unfold in_alphabet. simpl.
  intros H. repeat (destruct H as [<-|H]; [vm_compute; intuition congruence|]).
  contradiction.
Qed.

Lemma outside_alphabet_not_consumed (key : string) :
  (exists c, In c (list_ascii_of_string key) /\ ~ in_alphabet c) ->
  Contains ok_inputs key = false.
Proof.
  intros (c & Hin & Hout). destruct (Contains ok_inputs key) eqn:Hc; [|reflexivity].
  exfalso. apply Hout, ok_inputs_alphabet. eapply Contains_In; eauto.
Qed.

Lemma named_keys_not_consumed (key : string) :
  In key named_keys -> is_abort key = false -> Contains ok_inputs key = false.
Proof.
  unfold named_keys. cbn [In]. intros H Hab.
  repeat (destruct H as [<-|H]; [first [reflexivity|discriminate Hab]|]).
  contradiction.
Qed.

(** ** Runs of the loop *)

Lemma run_reachable (msgs : list Msg) :
  forall (m m' : Model) (cmd : Cmd),
    run m msgs = Ok (m', cmd) -> reachable m m'.
Proof.
  induction msgs as [|msg rest IH]; intros m m' cmd H.
  - inversion H; subst. apply reach_init.
  - cbn [run] in H. destruct (Update m msg) as [[m1 c1]|] eqn:Hu; [|discriminate].
    cbn [bind snd fst] in H.
    assert (reachable m m1) as H1 by (eapply reach_step; [apply reach_init|exact Hu]).
    assert (forall m2, reachable m1 m2 -> reachable m m2) as Htrans.
    { intros m2 H2. induction H2; [exact H1|eapply reach_step; eauto]. }
    destruct c1; try (apply Htrans; eapply IH; exact H).
    inversion H; subst. exact H1.
Qed.

Lemma session_reachable (ws : list string) (msgs : list Msg) (m : Model) (cmd : Cmd) :
  session ws msgs = Ok (m, cmd) ->
  exists m0, NewModel terminal no_wrap ws = Ok m0 /\ reachable m0 m.
Proof.
  unfold session. destruct (NewModel terminal no_wrap ws) as [m0|]; [|discriminate].
  cbn [bind]. intros H. exists m0. split; [reflexivity|].
  eapply run_reachable; eauto.
Qed.

(** ** The summary *)

Lemma Quit_summary (m m' : Model) (c w : Z) (a : float) :
  stopwatch.Running (time m) = true ->
  counts_of m = Ok (c, w) -> accuracy_of m = Ok a ->
  Quit m = Ok m' ->
  stats m' =
    Sprintf_stats w (Seconds (stopwatch.Elapsed (time m)))
      (wpm_of c (stopwatch.Elapsed (time m))) (a * float_of_Z 100)%float.
Proof.
  intros Hr Hc Ha. unfold Quit.
  change (time (set_quitting m true)) with (time m). rewrite Hr. cbn [negb].
  change (counts_of (set_quitting m true)) with (counts_of m).
  change (accuracy_of (set_quitting m true)) with (accuracy_of m).
  rewrite Hc, Ha. cbn [bind]. intros H. inversion H; subst. reflexivity.
Qed.

(** ** Small sums of statuses are exact in float64 *)

Lemma float_succ (k : nat) :
  (k < 16)%nat ->
  (float_of_Z (Z.of_nat k) + float_of_Z 1)%float = float_of_Z (Z.of_nat (S k)) /\
  (float_of_Z (Z.of_nat k) + float_of_Z 0)%float = float_of_Z (Z.of_nat k).
Proof.
  intros H.
  do 16 (destruct k as [|k]; [split; vm_compute; reflexivity|]). lia.
Qed.

Lemma count_status_total (l : list Status) :
  (count_status Good l + count_status Bad l + count_status Neutral l)%nat = List.length l.
Proof.
  induction l as [|x l IH]; [reflexivity|]. destruct x; simpl; lia.
Qed.

Lemma status_sum_small (l : list Status) :
  forall k : nat,
    (k + List.length l <= 16)%nat -> count_status Neutral l = 0%nat ->
    fold_left (fun acc st => (acc + float_of_Z (Status_int st))%float) l
      (float_of_Z (Z.of_nat k))
    = float_of_Z (Z.of_nat (k + count_status Good l)).
Proof.
  induction l as [|x l IH]; intros k Hlen Hn.
  - simpl. rewrite Nat.add_0_r. reflexivity.
  - simpl in Hlen. destruct x; simpl in Hn; [discriminate| |].
    + cbn [fold_left Status_int count_status Status_eqb].
      destruct (float_succ k) as [-> _]; [lia|].
      rewrite IH by (simpl; lia). f_equal. f_equal. lia.
    + cbn [fold_left Status_int count_status Status_eqb].
      destruct (float_succ k) as [_ ->]; [lia|].
      rewrite IH by (simpl; lia). reflexivity.
Qed.

(** ** Sessions evaluated

    A statement about a concrete session is a conjunction of equations,
    each closed by evaluation. *)
Ltac eval_conj :=
  repeat match goal with |- _ /\ _ => split; [vm_compute; reflexivity|] end;
  vm_compute; reflexivity.

(** On text that fits the line the wrapper returns its input: on 80
    columns it gives the buffers of the sessions that are run without it. *)
Lemma wordwrap_fits :
  Forall (fun s => wordwrap.String s 80 = no_wrap s 80)
    ["cat dog"; "a b"; "a"; "ab"; "hello talk"; "hello talks"].
Proof. repeat constructor. Qed.

(** * The claims *)

(** C1: [Quit] rebuilds the word verdicts by one left-to-right scan of the
    buffer with a running flag: on every session with a status per byte,
    [typed] is what the specification's scan gives ([word_flags]: the flag
    starts Good, turns Bad at a non-space character whose status is not Good,
    is emitted and reset at each space, and is emitted once more after the
    loop). For the buffer "cat dog" typed correctly the good word count is
    2 (good characters 6); typed as "cat dpg" the good word count is 1 and
    the good character count is 3. *)
Theorem C1_word_scan :
  (forall m : Model,
     List.length (inputs m) = String.length (chars m) ->
     typed_of m
     = Ok (word_flags (range_string (chars m)) (status_at (inputs m)) Good)) /\
  (exists m : Model,
     session ["cat"; "dog"] (typing "cat dog") = Ok (m, tea_Quit) /\
     chars m = "cat dog" /\
     inputs m = [Good; Good; Good; Good; Good; Good; Good] /\
     typed_of m = Ok [Good; Good] /\
     counts_of m = Ok (6, 2) /\
     stats m = "Correctly typed 2 words in 0.00s." ++ nl ++ "WPM: +Inf" ++ nl
                 ++ "Accuracy: 100.0%" ++ nl
                 ++ "See https://monkeytype.com/about for details about those stats."
                 ++ nl) /\
  (exists m : Model,
     session ["cat"; "dog"] (typing "cat dpg") = Ok (m, tea_Quit) /\
     chars m = "cat dog" /\
     inputs m = [Good; Good; Good; Good; Good; Bad; Good] /\
     typed_of m = Ok [Good; Bad] /\
     counts_of m = Ok (3, 1)).
Proof.
  split; [exact typed_of_spec|]. split.
  - eexists. split; [vm_compute; reflexivity|].
    repeat split; vm_compute; reflexivity.
  - eexists. split; [vm_compute; reflexivity|].
    repeat split; vm_compute; reflexivity.
Qed.

Lemma C1_word_scan_witness :
  typed_of (mkModel "cat dog" ["cat"; "dog"] [Good; Good; Good; Good; Good; Bad; Good]
              6 false (stopwatch.mk 0 1 0 true Millisecond) "")
  = Ok [Good; Bad].
Proof.
  rewrite (proj1 C1_word_scan); [|reflexivity]. vm_compute. reflexivity.
Defined.

(** C2 (as stated, refuted): an abort before any keystroke ends the
    session with the finished flag set and an empty summary. *)
Lemma C2_no_summary_before_start :
  exists m : Model,
    session ["cat"; "dog"] [KeyMsg "esc"] = Ok (m, tea_Quit) /\
    quitting m = true /\ stats m = "".
Proof.
  eexists. split; [vm_compute; reflexivity|]. split; reflexivity.
Qed.

(** The same happens on natural completion when the last key is handled
    before the stopwatch's start message, as it always is in a buffer of
    one byte. *)
Example one_byte_buffer_no_summary :
  exists m : Model,
    session ["a"] [KeyMsg "a"] = Ok (m, tea_Quit) /\
    quitting m = true /\ stats m = "".
Proof.
  eexists. split; [vm_compute; reflexivity|]. split; reflexivity.
Qed.

(** C2 (amended): both ways of ending a session, an abort key or an
    accepted key at the last index, set the finished flag and return the
    quit command whenever the step returns. On every state the loop reaches
    from a constructed session: when the stopwatch is not running (its start
    message has not been handled), the step returns without a panic,
    whatever the words, and leaves the summary as it was; when the stopwatch
    is running and the words hold no space (the wrapper adding none), the
    step returns without a panic and writes a summary that is not empty. An
    abort on a session just constructed leaves the summary empty. *)
Theorem C2_end_of_session :
  (forall (m m' : Model) (key : string) (cmd : Cmd),
     is_abort key = true \/ (accepted key = true /\ current m = len (chars m) - 1) ->
     Update m (KeyMsg key) = Ok (m', cmd) ->
     cmd = tea_Quit /\ quitting m' = true /\
     if stopwatch.Running (time m) then stats m' <> "" else stats m' = stats m) /\
  (forall gs ww ws (m0 m : Model) (key : string),
     NewModel gs ww ws = Ok m0 -> reachable m0 m ->
     is_abort key = true \/ (accepted key = true /\ current m = len (chars m) - 1) ->
     stopwatch.Running (time m) = false ->
     exists m' : Model,
       Update m (KeyMsg key) = Ok (m', tea_Quit) /\ quitting m' = true /\
       stats m' = stats m) /\
  (forall gs ww ws (m0 m : Model) (key : string),
     ws <> [] ->
     Forall (fun w => count_space w = 0%nat) ws ->
     (forall w h, gs 0 = Some (w, h) ->
        (count_space (ww (Join ws " ") w) <= count_space (Join ws " "))%nat) ->
     NewModel gs ww ws = Ok m0 -> reachable m0 m ->
     is_abort key = true \/ (accepted key = true /\ current m = len (chars m) - 1) ->
     stopwatch.Running (time m) = true ->
     exists m' : Model,
       Update m (KeyMsg key) = Ok (m', tea_Quit) /\ quitting m' = true /\
       stats m' <> "") /\
  (forall gs ww ws (m0 : Model) (key : string),
     NewModel gs ww ws = Ok m0 -> is_abort key = true ->
     exists m' : Model,
       Update m0 (KeyMsg key) = Ok (m', tea_Quit) /\ quitting m' = true /\
       stats m' = "").
Proof.
  assert (forall (m : Model) (key : string),
            List.length (inputs m) = String.length (chars m) ->
            0 <= current m < len (chars m) ->
            is_abort key = true \/ (accepted key = true /\ current m = len (chars m) - 1) ->
            exists c : ascii,
              Update m (KeyMsg key) =
              let* m' := Quit (if is_abort key then m else mark m c key) in
              Ok (m', tea_Quit)) as Hend.
  { intros m key Hi Hc Hkey. rewrite Update_key.
    destruct Hkey as [->|[Hacc Hlast]]; [exists " "%char; reflexivity|].
    unfold accepted in Hacc. apply andb_true_iff in Hacc as [Hab Hcon].
    apply negb_true_iff in Hab. rewrite Hab, Hcon.
    destruct (index_byte_Ok (chars m) (current m) Hc) as [c ->]. cbn [bind].
    rewrite store_list_Ok by (unfold len in Hc; lia). cbn [bind].
    apply Z.eqb_eq in Hlast. rewrite Hlast. exists c. reflexivity. }
  split; [|split; [|split]].
  - intros m m' key cmd Hkey H. rewrite Update_key in H.
    destruct Hkey as [Hab|[Hacc Hlast]].
    + rewrite Hab in H. destruct (Quit m) as [m1|] eqn:HQ; [|discriminate].
      cbn [bind] in H. inversion H; subst.
      split; [reflexivity|].
      split; [apply (Quit_frame _ _ HQ)|apply (Quit_stats _ _ HQ)].
    + unfold accepted in Hacc. apply andb_true_iff in Hacc as [Hab Hcon].
      apply negb_true_iff in Hab. rewrite Hab, Hcon in H.
      destruct (index_byte (chars m) (current m)) as [c|]; [|discriminate].
      cbn [bind] in H.
      destruct (store_list _ _ _) as [inputs'|]; [|discriminate]. cbn [bind] in H.
      apply Z.eqb_eq in Hlast. rewrite Hlast in H.
      destruct (Quit (set_inputs m inputs')) as [m1|] eqn:HQ; [|discriminate].
      cbn [bind] in H. inversion H; subst.
      split; [reflexivity|].
      split; [apply (Quit_frame _ _ HQ)|apply (Quit_stats _ _ HQ)].
  - intros gs ww ws m0 m key H0 Hr Hkey Hrun.
    pose proof (reachable_lengths gs ww ws m0 m H0 Hr) as Hi.
    assert (0 <= current m < len (chars m)) as Hc.
    { apply (reachable_cursor m0 m); [|exact Hr].
      apply NewModel_inv in H0 as (w & h & _ & -> & Hlen). simpl in *. lia. }
    destruct (Hend m key Hi Hc Hkey) as [c ->].
    rewrite Quit_not_running by (destruct (is_abort key); exact Hrun).
    cbn [bind]. eexists. split; [reflexivity|].
    split; [reflexivity|]. destruct (is_abort key); reflexivity.
  - intros gs ww ws m0 m key Hne Hws Hww H0 Hr Hkey Hrun.
    assert (wf m) as [Hi Hc Hw].
    { eapply reachable_wf; [|exact Hr]. eapply NewModel_wf; eauto. }
    destruct (Hend m key Hi Hc Hkey) as [c ->].
    destruct (Quit_total (if is_abort key then m else mark m c key)) as [m1 HQ].
    { destruct (is_abort key); simpl; rewrite ?length_insert; exact Hi. }
    { destruct (is_abort key); exact Hw. }
    { destruct (is_abort key); simpl; lia. }
    rewrite HQ. cbn [bind]. exists m1. split; [reflexivity|].
    split; [apply (Quit_frame _ _ HQ)|].
    pose proof (Quit_stats _ _ HQ) as Hs.
    assert (stopwatch.Running (time (if is_abort key then m else mark m c key)) = true)
      as Hrun' by (destruct (is_abort key); exact Hrun).
    rewrite Hrun' in Hs. exact Hs.
  - intros gs ww ws m0 key H0 Hab.
    apply NewModel_inv in H0 as (w & h & _ & -> & _).
    rewrite Update_key, Hab. rewrite Quit_not_running by reflexivity.
    cbn [bind]. eexists. split; [reflexivity|]. split; reflexivity.
Qed.

Lemma C2_end_of_session_witness :
  exists m' : Model,
    Update (mkModel "cat dog" ["cat"; "dog"]
              [Good; Good; Good; Neutral; Neutral; Neutral; Neutral]
              3 false (stopwatch.mk 0 1 0 true Millisecond) "")
           (KeyMsg "esc") = Ok (m', tea_Quit) /\
    quitting m' = true /\ stats m' <> "".
Proof.
  refine (proj1 (proj2 (proj2 C2_end_of_session)) terminal no_wrap ["cat"; "dog"]
            (mkModel "cat dog" ["cat"; "dog"]
               [Neutral; Neutral; Neutral; Neutral; Neutral; Neutral; Neutral]
               0 false (stopwatch.mk 0 1 0 false Millisecond) "")
            _ "esc" _ _ _ _ _ _ _).
  - discriminate.
  - repeat constructor.
  - intros w h _. apply Nat.le_refl.
  - vm_compute. reflexivity.
  - apply (run_reachable (typing "cat") _ _ cmd_nil). vm_compute. reflexivity.
  - left. reflexivity.
  - reflexivity.
Defined.

(** C3 (as stated, refuted): typing the whole two-byte buffer "ab" ends
    the session with the cursor at 1, not at [len(buffer)] = 2: the accepted
    key at the last index does not move the cursor. *)
Lemma C3_cursor_ends_on_last_index :
  exists m1 m2 : Model,
    session ["ab"] [KeyMsg "a"; StartStopMsg 1 true] = Ok (m1, cmd_nil) /\
    current m1 = 1 /\ accepted "b" = true /\
    Update m1 (KeyMsg "b") = Ok (m2, tea_Quit) /\
    current m2 = 1 /\ len (chars m2) = 2.
Proof.
  do 2 eexists. split; [vm_compute; reflexivity|].
  split; [reflexivity|]. split; [reflexivity|].
  split; [vm_compute; reflexivity|]. split; reflexivity.
Qed.

(** C3 (amended): the cursor of a constructed session starts at 0. An
    accepted key at an index before the last moves it forward by exactly 1
    and the loop goes on; an accepted key at the last index,
    [len(buffer) - 1], leaves it there and ends the session; any other
    event leaves it where it is. So it never decreases, and on every state
    the loop reaches it lies between 0 and [len(buffer) - 1], its value
    when the whole buffer has been typed. *)
Theorem C3_cursor :
  (forall gs ww ws (m0 : Model),
     NewModel gs ww ws = Ok m0 -> current m0 = 0) /\
  (forall (m m' : Model) (msg : Msg) (cmd : Cmd),
     Update m msg = Ok (m', cmd) ->
     current m <= current m' /\
     match msg with
     | KeyMsg key =>
       if accepted key then
         if current m =? len (chars m) - 1
         then current m' = current m /\ cmd = tea_Quit
         else current m' = current m + 1 /\ cmd <> tea_Quit
       else current m' = current m
     | _ => current m' = current m
     end) /\
  (forall gs ww ws (m0 m : Model),
     NewModel gs ww ws = Ok m0 -> reachable m0 m ->
     0 <= current m <= len (chars m) - 1).
Proof.
  split; [|split].
  - intros gs ww ws m0 H. apply NewModel_inv in H as (w & h & _ & -> & _).
    reflexivity.
  - intros m m' msg cmd H. split.
    { apply Update_step in H as (_ & _ & _ & [->| [-> _]]); lia. }
    destruct msg as [key| | | |].
    2-4: rewrite Update_not_key in H by discriminate; inversion H; reflexivity.
    2: rewrite Update_not_key in H by discriminate; inversion H; reflexivity.
    rewrite Update_key in H. unfold accepted.
    destruct (is_abort key); cbn [negb andb].
    { destruct (Quit m) as [m1|] eqn:HQ; [|discriminate]. cbn [bind] in H.
      inversion H; subst. apply (Quit_frame _ _ HQ). }
    destruct (Contains ok_inputs key); [|inversion H; reflexivity].
    destruct (index_byte (chars m) (current m)) as [c|]; [|discriminate].
    cbn [bind] in H.
    destruct (store_list _ _ _) as [inputs'|]; [|discriminate]. cbn [bind] in H.
    destruct (current m =? len (chars m) - 1).
    + destruct (Quit _) as [m1|] eqn:HQ; [|discriminate]. cbn [bind] in H.
      inversion H; subst. split; [|reflexivity].
      apply Quit_frame in HQ as (_ & _ & _ & -> & _). reflexivity.
    + inversion H; subst. split; [reflexivity|].
      destruct ((current m =? 0) && negb (stopwatch.Running (time m))); discriminate.
  - intros gs ww ws m0 m H0 Hr.
    apply NewModel_inv in H0 as (w & h & _ & Hm0 & Hlen).
    assert (0 <= current m0 < len (chars m0)) as Hc0 by (rewrite Hm0 in *; simpl in *; lia).
    pose proof (reachable_cursor m0 m Hc0 Hr). lia.
Qed.

Lemma C3_cursor_witness :
  Update (mkModel "ab" ["ab"] [Neutral; Neutral] 0 false
            (stopwatch.mk 0 1 0 false Millisecond) "") (KeyMsg "a")
  = Ok (mkModel "ab" ["ab"] [Good; Neutral] 1 false
          (stopwatch.mk 0 1 0 false Millisecond) "", cmd_Start 1 0 Millisecond) /\
  current (mkModel "ab" ["ab"] [Good; Neutral] 1 false
             (stopwatch.mk 0 1 0 false Millisecond) "")
  = current (mkModel "ab" ["ab"] [Neutral; Neutral] 0 false
               (stopwatch.mk 0 1 0 false Millisecond) "") + 1 /\
  cmd_Start 1 0 Millisecond <> tea_Quit.
Proof.
  split; [reflexivity|].
  exact (proj2 (proj1 (proj2 C3_cursor)
                  (mkModel "ab" ["ab"] [Neutral; Neutral] 0 false
                     (stopwatch.mk 0 1 0 false Millisecond) "")
                  (mkModel "ab" ["ab"] [Good; Neutral] 1 false
                     (stopwatch.mk 0 1 0 false Millisecond) "")
                  (KeyMsg "a") (cmd_Start 1 0 Millisecond) eq_refl)).
Defined.

(** C4 (the code fails the claim): ten words without a space, 89 bytes
    when joined, on a terminal 80 columns wide. The wrapper turns the space
    before the last word into a line break, and the buffer [NewModel] keeps
    is the wrapped text: it has 9 space-delimited segments for 10 words, and
    the scan of [Quit] gives 9 verdicts, before any key and after the whole
    text has been typed. A space typed at the line break is marked Bad, and
    so is the segment that holds the line break. *)
Theorem C4_line_break_merges_two_words :
  exists m0 m : Model,
    NewModel terminal wordwrap.String
      ["business"; "services"; "products"; "software"; "research";
       "computer"; "national"; "internet"; "shipping"; "children"] = Ok m0 /\
    chars m0 =
      "business services products software research computer national internet shipping"
        ++ nl ++ "children" /\
    List.length (words m0) = 10%nat /\
    List.length (segments (chars m0)) = 9%nat /\
    typed_of m0 = Ok [Bad; Bad; Bad; Bad; Bad; Bad; Bad; Bad; Bad] /\
    wrapped_session 80
      ["business"; "services"; "products"; "software"; "research";
       "computer"; "national"; "internet"; "shipping"; "children"]
      (typing
         "business services products software research computer national internet shipping children")
    = Ok (m, tea_Quit) /\
    chars m = chars m0 /\
    count_status Good (inputs m) = 88%nat /\
    inputs m !! 80%nat = Some Bad /\
    typed_of m = Ok [Good; Good; Good; Good; Good; Good; Good; Good; Bad].
Proof.
  do 2 eexists. eval_conj.
Qed.

(** C10 (as stated, refuted): with the one-word list ["a b"], typed
    correctly, the scan gives two Good verdicts for one word, and the
    lookup [words[1]] panics in the step that handles the last key. *)
Lemma C10_lookup_out_of_range :
  exists m1 : Model,
    session ["a b"] (typing "a ") = Ok (m1, cmd_nil) /\
    words m1 = ["a b"] /\
    typed_of (set_inputs m1 [Good; Good; Good]) = Ok [Good; Good] /\
    index_list (words m1) 1 = Panic "index out of range" /\
    Update m1 (KeyMsg "b") = Panic "index out of range".
Proof.
  eexists. split; [vm_compute; reflexivity|]. repeat split; vm_compute; reflexivity.
Qed.

(** C10 (amended): for every non-empty word list of length n whose words
    hold no space, when the wrapper adds no space to the joined text, the
    buffer holds at most n-1 spaces; on every state the loop reaches, the
    scan gives at most n verdicts, the lookup [words[index]] succeeds at
    every index of a verdict, and [Quit] returns without a panic. *)
Theorem C10_word_lookup_in_bounds
    (gs : Z -> option (Z * Z)) (ww : string -> Z -> string)
    (ws : list string) (m0 m : Model) :
  ws <> [] ->
  Forall (fun w => count_space w = 0%nat) ws ->
  (forall w h, gs 0 = Some (w, h) ->
     (count_space (ww (Join ws " ") w) <= count_space (Join ws " "))%nat) ->
  NewModel gs ww ws = Ok m0 ->
  reachable m0 m ->
  (count_space (chars m) <= List.length ws - 1)%nat /\
  (exists typed : list Status,
     typed_of m = Ok typed /\
     (List.length typed <= List.length (words m))%nat /\
     forall index : Z,
       0 <= index < Z.of_nat (List.length typed) ->
       exists w, index_list (words m) index = Ok w) /\
  exists m' : Model, Quit m = Ok m'.
Proof.
  intros Hne Hws Hww H0 Hr.
  assert (wf m0) as Hwf0 by (eapply NewModel_wf; eauto).
  pose proof (reachable_wf m0 m Hwf0 Hr) as [Hi Hc Hw].
  destruct (reachable_frame m0 m Hr) as (_ & Hwords & _).
  apply NewModel_inv in H0 as (w & h & Hgs & Hm0 & _).
  assert (words m = ws) as Hwm by (rewrite Hwords, Hm0; reflexivity).
  rewrite Hwm in *. split; [lia|]. split.
  - destruct (typed_of_length m Hi) as (typed & Ht & Hlen & _).
    exists typed. split; [exact Ht|]. split; [lia|].
    intros index Hidx.
    destruct (index_list_Ok ws index) as (x & _ & Hx); [lia|eauto].
  - apply Quit_total; [exact Hi|rewrite Hwm; exact Hw|lia].
Qed.

Lemma C10_word_lookup_in_bounds_witness :
  exists m : Model,
    session ["cat"; "dog"] (typing "cat d") = Ok (m, cmd_nil) /\
    exists m' : Model, Quit m = Ok m'.
Proof.
  exists (mkModel "cat dog" ["cat"; "dog"]
            [Good; Good; Good; Good; Good; Neutral; Neutral] 5 false
            (stopwatch.mk 0 1 0 true Millisecond) "").
  split; [vm_compute; reflexivity|].
  refine (proj2 (proj2 (C10_word_lookup_in_bounds terminal no_wrap ["cat"; "dog"]
                          (mkModel "cat dog" ["cat"; "dog"]
                             [Neutral; Neutral; Neutral; Neutral; Neutral; Neutral; Neutral]
                             0 false (stopwatch.mk 0 1 0 false Millisecond) "")
                          _ _ _ _ _ _))).
  - discriminate.
  - repeat constructor.
  - intros w h _. apply Nat.le_refl.
  - vm_compute. reflexivity.
  - apply (run_reachable (typing "cat d") _ _ cmd_nil). vm_compute. reflexivity.
Defined.

(** C5: an accepted key marks the position under the cursor Good when it
    equals the buffer character there and Bad otherwise. When the cursor is
    at the last index, [len(buffer) - 1], the same step runs the
    end-of-session handling on the marked session and returns the quit
    command, with no further event; otherwise the step returns the marked
    session with the cursor moved forward by one and a command that is not
    the quit command. *)
Theorem C5_accepted_key (m : Model) (key : string) (c : ascii) :
  accepted key = true ->
  index_byte (chars m) (current m) = Ok c ->
  List.length (inputs m) = String.length (chars m) ->
  (verdict c key = Good <-> string_of_byte c = key) /\
  (verdict c key = Bad <-> string_of_byte c <> key) /\
  (byteZ c < 128 -> string_of_byte c = String c "") /\
  inputs (mark m c key) !! Z.to_nat (current m) = Some (verdict c key) /\
  if current m =? len (chars m) - 1 then
    Update m (KeyMsg key) = (let* m' := Quit (mark m c key) in Ok (m', tea_Quit)) /\
    forall (m' : Model) (cmd : Cmd),
      Update m (KeyMsg key) = Ok (m', cmd) ->
      cmd = tea_Quit /\ quitting m' = true /\
      inputs m' = inputs (mark m c key) /\ current m' = current m
  else
    exists cmd : Cmd,
      Update m (KeyMsg key) = Ok (set_current (mark m c key) (current m + 1), cmd) /\
      cmd <> tea_Quit.
Proof.
  intros Hacc Hc Hlen.
  unfold accepted in Hacc. apply andb_true_iff in Hacc as [Hab Hcon].
  apply negb_true_iff in Hab.
  pose proof (index_byte_inv _ _ _ Hc) as Hrange.
  assert (Update m (KeyMsg key) =
          if current m =? len (chars m) - 1 then
            let* m' := Quit (mark m c key) in Ok (m', tea_Quit)
          else
            Ok (set_current (mark m c key) (current m + 1),
                if (current m =? 0) && negb (stopwatch.Running (time m))
                then stopwatch.Start (time m) else cmd_nil)) as HU.
  { rewrite Update_key, Hab, Hcon, Hc. cbn [bind].
    rewrite store_list_Ok by (unfold len in Hrange; lia). reflexivity. }
  split; [|split; [|split; [|split]]].
  - unfold verdict. destruct (String.eqb_spec (string_of_byte c) key); split;
      congruence.
  - unfold verdict. destruct (String.eqb_spec (string_of_byte c) key); split;
      congruence.
  - intros Hascii. unfold string_of_byte, string_of_rune.
    pose proof (byteZ_range c) as Hb.
    assert ((0 <=? byteZ c) && (byteZ c <? 128) = true) as ->
      by (apply andb_true_iff; split; [apply Z.leb_le|apply Z.ltb_lt]; lia).
    rewrite byte_of_byteZ. reflexivity.
  - unfold mark. cbn [inputs set_inputs]. apply list_lookup_insert_eq.
    unfold len in Hrange. lia.
  - rewrite HU. destruct (current m =? len (chars m) - 1).
    + split; [reflexivity|]. intros m' cmd H.
      destruct (Quit (mark m c key)) as [m1|] eqn:HQ; [|discriminate].
      cbn [bind] in H. inversion H; subst.
      apply Quit_frame in HQ as (_ & _ & Hin & Hcur & _ & Hq).
      repeat split; auto.
    + eexists. split; [reflexivity|].
      destruct ((current m =? 0) && negb (stopwatch.Running (time m))); discriminate.
Qed.

Lemma C5_accepted_key_witness :
  exists m' : Model,
    Update (mkModel "cat dog" ["cat"; "dog"]
              [Good; Good; Good; Good; Good; Good; Neutral]
              6 false (stopwatch.mk 2000000 1 2 true Millisecond) "")
           (KeyMsg "g") = Ok (m', tea_Quit) /\
    inputs m' = [Good; Good; Good; Good; Good; Good; Good] /\
    quitting m' = true.
Proof.
  pose proof (C5_accepted_key
                (mkModel "cat dog" ["cat"; "dog"]
                   [Good; Good; Good; Good; Good; Good; Neutral]
                   6 false (stopwatch.mk 2000000 1 2 true Millisecond) "")
                "g" "g"%char eq_refl eq_refl eq_refl) as (_ & _ & _ & _ & HU & Hall).
  eexists. split; [rewrite HU; vm_compute; reflexivity|].
  split; reflexivity.
Defined.

(** C6: [Quit] is idempotent: on every session, ending twice gives the
    session (and so the summary) that ending once gives, and the second call
    panics only if the first did. *)
Theorem C6_Quit_idempotent (m : Model) :
  (let* m' := Quit m in Quit m') = Quit m.
Proof.
  destruct (Quit m) as [m'|msg] eqn:HQ; cbn [bind]; [|reflexivity].
  apply (Quit_again _ _ HQ).
Qed.

(** C7 (the code fails the claim): the ten-byte buffer "hello talk" typed
    to its end as "hello txxk", 8 characters right and 2 wrong. The
    session ends with the cursor on the last index, 9, so the accuracy is
    taken over the first nine statuses only, 7 Good out of 9: the summary
    prints 77.8%. On the eleven-byte buffer "hello talks" the same ten keys
    followed by an abort leave the cursor at 10, and the summary prints
    80.0%. *)
Theorem C7_last_character_not_counted :
  (exists m : Model,
     session ["hello"; "talk"]
       (KeyMsg "h" :: StartStopMsg 1 true :: ticks 3000 ++ keys "ello txxk")%list
     = Ok (m, tea_Quit) /\
     chars m = "hello talk" /\
     inputs m = [Good; Good; Good; Good; Good; Good; Good; Bad; Bad; Good] /\
     count_status Good (inputs m) = 8%nat /\ count_status Bad (inputs m) = 2%nat /\
     current m = 9 /\
     accuracy_of m = Ok (float_of_Z 7 / float_of_Z 9)%float /\
     stats m = "Correctly typed 1 words in 3.00s." ++ nl ++ "WPM: 20" ++ nl
                 ++ "Accuracy: 77.8%" ++ nl
                 ++ "See https://monkeytype.com/about for details about those stats."
                 ++ nl) /\
  (exists m : Model,
     session ["hello"; "talks"]
       (KeyMsg "h" :: StartStopMsg 1 true :: ticks 3000
          ++ keys "ello txxk" ++ [KeyMsg "esc"])%list
     = Ok (m, tea_Quit) /\
     chars m = "hello talks" /\
     take 10 (inputs m) = [Good; Good; Good; Good; Good; Good; Good; Bad; Bad; Good] /\
     current m = 10 /\
     accuracy_of m = Ok (float_of_Z 8 / float_of_Z 10)%float /\
     stats m = "Correctly typed 1 words in 3.00s." ++ nl ++ "WPM: 20" ++ nl
                 ++ "Accuracy: 80.0%" ++ nl
                 ++ "See https://monkeytype.com/about for details about those stats."
                 ++ nl).
Proof.
  split; eexists; eval_conj.
Qed.

(** C8 (the code fails the claim): the words typing, speed, tests, are and
    great on a terminal 20 columns wide, typed without an error in 6
    seconds (a space typed at the line break). The wrapper turns the space
    after "tests" into a line break, so the scan gives four verdicts for
    five words, Good, Good, Bad, Good, and the fourth, the verdict of
    "great", is counted with the length of the fourth word, "are". The
    summary reports 14 good characters as WPM 28; the words of the three
    Good segments, typing, speed and great, hold 16 characters, which over
    the same time is WPM 32. *)
Theorem C8_good_characters_of_another_word :
  exists m : Model,
    wrapped_session 20 ["typing"; "speed"; "tests"; "are"; "great"]
      (KeyMsg "t" :: StartStopMsg 1 true :: ticks 6000
         ++ keys "yping speed tests are great")%list
    = Ok (m, tea_Quit) /\
    chars m = "typing speed tests" ++ nl ++ "are great" /\
    segments (chars m) = ["typing"; "speed"; "tests" ++ nl ++ "are"; "great"] /\
    typed_of m = Ok [Good; Good; Bad; Good] /\
    index_list (words m) 3 = Ok "are" /\
    counts_of m = Ok (len "typing" + len "speed" + len "are", 3) /\
    counts_of m = Ok (14, 3) /\
    len "typing" + len "speed" + len "great" = 16 /\
    stopwatch.Elapsed (time m) = 6 * Second /\
    stats m = "Correctly typed 3 words in 6.00s." ++ nl ++ "WPM: 28" ++ nl
                ++ "Accuracy: 96.3%" ++ nl
                ++ "See https://monkeytype.com/about for details about those stats."
                ++ nl /\
    FormatFloat 0 (wpm_of 14 (6 * Second)) = "28" /\
    FormatFloat 0 (wpm_of 16 (6 * Second)) = "32".
Proof.
  eexists. eval_conj.
Qed.

(** C9: a key that is not an abort key is ignored when it holds a character
    outside the accepted alphabet (the space and the lowercase letters a to
    z), and when it is one of the keys that are not characters and are named
    in lowercase letters (enter, tab, backspace, delete, insert, the arrows,
    home, end, page up and page down): [Update] returns the session as it
    was, so the buffer, the statuses, the cursor, the finished flag and the
    summary are unchanged, and the command is nil. *)
Theorem C9_key_outside_alphabet (m : Model) (key : string) :
  is_abort key = false ->
  (exists c : ascii, In c (list_ascii_of_string key) /\ ~ in_alphabet c) \/
  In key named_keys ->
  Update m (KeyMsg key) = Ok (m, cmd_nil) /\
  exists m' : Model,
    Update m (KeyMsg key) = Ok (m', cmd_nil) /\
    chars m' = chars m /\ inputs m' = inputs m /\ current m' = current m /\
    quitting m' = quitting m /\ stats m' = stats m.
Proof.
  intros Hab Hout.
  assert (Contains ok_inputs key = false) as Hcon.
  { destruct Hout as [Hout|Hin].
    - exact (outside_alphabet_not_consumed key Hout).
    - exact (named_keys_not_consumed key Hin Hab). }
  assert (Update m (KeyMsg key) = Ok (m, cmd_nil)) as HU
    by (rewrite Update_key, Hab, Hcon; reflexivity).
  split; [exact HU|]. exists m. repeat split; exact HU.
Qed.

Lemma C9_key_outside_alphabet_witness :
  (exists m' : Model,
     Update (mkModel "cat dog" ["cat"; "dog"]
               [Good; Good; Good; Neutral; Neutral; Neutral; Neutral]
               3 false (stopwatch.mk 2000000 1 2 true Millisecond) "")
            (KeyMsg "A") = Ok (m', cmd_nil) /\
     chars m' = "cat dog" /\
     inputs m' = [Good; Good; Good; Neutral; Neutral; Neutral; Neutral] /\
     current m' = 3 /\ quitting m' = false /\ stats m' = "") /\
  Update (mkModel "cat dog" ["cat"; "dog"]
            [Good; Good; Good; Neutral; Neutral; Neutral; Neutral]
            3 false (stopwatch.mk 2000000 1 2 true Millisecond) "")
         (KeyMsg "enter")
  = Ok (mkModel "cat dog" ["cat"; "dog"]
          [Good; Good; Good; Neutral; Neutral; Neutral; Neutral]
          3 false (stopwatch.mk 2000000 1 2 true Millisecond) "", cmd_nil).
Proof.
  split.
  - apply (C9_key_outside_alphabet
             (mkModel "cat dog" ["cat"; "dog"]
                [Good; Good; Good; Neutral; Neutral; Neutral; Neutral]
                3 false (stopwatch.mk 2000000 1 2 true Millisecond) "") "A").
    + reflexivity.
    + left. exists "A"%char. split; [left; reflexivity|].
      unfold in_alphabet. vm_compute.
      intros [H|[H _]]; [discriminate H|apply H; reflexivity].
  - apply (C9_key_outside_alphabet
             (mkModel "cat dog" ["cat"; "dog"]
                [Good; Good; Good; Neutral; Neutral; Neutral; Neutral]
                3 false (stopwatch.mk 2000000 1 2 true Millisecond) "") "enter").
    + reflexivity.
    + right. left. reflexivity.
Defined.

(** * Further properties *)

(** ** The boundary between decided and undecided statuses *)

Lemma index_byte_get (s : string) (i : Z) (c : ascii) :
  index_byte s i = Ok c -> String.get (Z.to_nat i) s = Some c.
Proof.
  unfold index_byte. destruct ((0 <=? i) && (i <? len s)); [|discriminate].
  destruct (String.get (Z.to_nat i) s); [|discriminate].
  intros H. inversion H. reflexivity.
Qed.

Lemma verdict_decided (c : ascii) (key : string) : verdict c key <> Neutral.
Proof. unfold verdict. destruct (_ =? _)%string; discriminate. Qed.

Lemma boundary_quit (m m' : Model) : boundary m -> Quit m = Ok m' -> boundary m'.
Proof.
  intros Hb HQ. apply Quit_frame in HQ as (_ & _ & Hin & Hcur & _ & Hq).
  intros i st Hi. rewrite Hin in Hi. rewrite Hcur, Hq.
  destruct (Hb i st Hi) as (H1 & H2 & _). repeat split; auto. discriminate.
Qed.

Lemma boundary_mark (m : Model) (c : ascii) (key : string) :
  0 <= current m -> boundary m ->
  forall (i : nat) (st : Status),
    inputs (mark m c key) !! i = Some st ->
    (Z.of_nat i <= current m -> st <> Neutral) /\
    (current m < Z.of_nat i -> st = Neutral).
Proof.
  intros Hpos Hb i st Hi. unfold mark in Hi. cbn [inputs set_inputs] in Hi.
  destruct (decide (i = Z.to_nat (current m))) as [->|Hne].
  - assert (st = verdict c key) as ->.
    { destruct (decide (Z.to_nat (current m) < List.length (inputs m))%nat) as [Hlt|Hge].
      - rewrite list_lookup_insert_eq in Hi by exact Hlt. congruence.
      - rewrite list_insert_ge in Hi by lia. apply lookup_lt_Some in Hi. lia. }
    split; [intros _; apply verdict_decided|lia].
  - rewrite list_lookup_insert_ne in Hi by congruence.
    destruct (Hb i st Hi) as (H1 & H2 & _). split; [|exact H2].
    intros Hle. apply H1. lia.
Qed.

Lemma boundary_Update (m m' : Model) (msg : Msg) (cmd : Cmd) :
  boundary m -> Update m msg = Ok (m', cmd) -> boundary m'.
Proof.
  intros Hb H. destruct msg as [key| | | |].
  2-5: rewrite Update_not_key in H by discriminate; inversion H; subst;
       intros i st Hi; exact (Hb i st Hi).
  rewrite Update_key in H. destruct (is_abort key).
  { destruct (Quit m) as [m1|] eqn:HQ; [|discriminate]. cbn [bind] in H.
    inversion H; subst. eapply boundary_quit; eauto. }
  destruct (Contains ok_inputs key); [|inversion H; subst; exact Hb].
  destruct (index_byte (chars m) (current m)) as [c|] eqn:Hc; [|discriminate].
  apply index_byte_inv in Hc. cbn [bind] in H.
  destruct (store_list _ _ _) as [inputs'|] eqn:Hs; [|discriminate].
  apply store_list_inv in Hs as [_ ->]. cbn [bind] in H.
  fold (mark m c key) in H.
  pose proof (boundary_mark m c key (proj1 Hc) Hb) as Hm.
  destruct (current m =? len (chars m) - 1).
  - destruct (Quit (mark m c key)) as [m1|] eqn:HQ; [|discriminate]. cbn [bind] in H.
    inversion H; subst.
    apply Quit_frame in HQ as (_ & _ & Hin & Hcur & _ & Hq).
    intros i st Hi. rewrite Hin in Hi. rewrite Hcur, Hq.
    change (current (mark m c key)) with (current m).
    destruct (Hm i st Hi) as [H1 H2]. repeat split; auto; [intros; apply H1; lia|discriminate].
  - inversion H; subst. intros i st Hi.
    cbn [inputs current quitting set_current] in *.
    destruct (Hm i st Hi) as [H1 H2].
    repeat split; intros; [apply H1|apply H2|apply H2]; lia.
Qed.

Lemma boundary_NewModel (gs : Z -> option (Z * Z)) (ww : string -> Z -> string)
    (ws : list string) (m0 : Model) :
  NewModel gs ww ws = Ok m0 -> boundary m0.
Proof.
  intros H. apply NewModel_inv in H as (w & h & _ & -> & _).
  intros i st Hi. cbn [inputs] in Hi. apply lookup_replicate in Hi as [-> _].
  repeat split; intros; try reflexivity. cbn [current] in *. lia.
Qed.

Lemma reachable_boundary (m0 m : Model) : boundary m0 -> reachable m0 m -> boundary m.
Proof.
  intros H0. induction 1 as [|m msg m' cmd _ IH Hstep]; [exact H0|].
  eapply boundary_Update; eauto.
Qed.

(** X1: the cursor is the boundary between decided and undecided
    characters. On every state the loop reaches from a constructed session,
    each status before the cursor is Good or Bad and each status after it is
    Neutral; the status under the cursor is Neutral as long as the session
    is not finished. *)
Theorem X1_cursor_is_boundary
    (gs : Z -> option (Z * Z)) (ww : string -> Z -> string)
    (ws : list string) (m0 m : Model) (i : nat) (st : Status) :
  NewModel gs ww ws = Ok m0 ->
  reachable m0 m ->
  inputs m !! i = Some st ->
  (Z.of_nat i < current m -> st = Good \/ st = Bad) /\
  (current m < Z.of_nat i -> st = Neutral) /\
  (Z.of_nat i = current m -> quitting m = false -> st = Neutral).
Proof.
  intros H0 Hr Hi.
  pose proof (reachable_boundary m0 m (boundary_NewModel _ _ _ _ H0) Hr i st Hi)
    as (H1 & H2 & H3).
  repeat split; auto. intros Hlt. specialize (H1 Hlt). destruct st; tauto.
Qed.

Lemma X1_cursor_is_boundary_witness :
  inputs (mkModel "cat dog" ["cat"; "dog"]
            [Good; Good; Good; Neutral; Neutral; Neutral; Neutral]
            3 false (stopwatch.mk 0 1 0 true Millisecond) "") !! 4%nat = Some Neutral /\
  Neutral = Neutral.
Proof.
  split; [reflexivity|].
  refine (proj1 (proj2 (X1_cursor_is_boundary terminal no_wrap ["cat"; "dog"]
           (mkModel "cat dog" ["cat"; "dog"]
              [Neutral; Neutral; Neutral; Neutral; Neutral; Neutral; Neutral]
              0 false (stopwatch.mk 0 1 0 false Millisecond) "")
           (mkModel "cat dog" ["cat"; "dog"]
              [Good; Good; Good; Neutral; Neutral; Neutral; Neutral]
              3 false (stopwatch.mk 0 1 0 true Millisecond) "")
           4%nat Neutral _ _ _)) _).
  - vm_compute. reflexivity.
  - apply (run_reachable (typing "cat") _ _ cmd_nil). vm_compute. reflexivity.
  - reflexivity.
  - simpl. lia.
Defined.

(** ** What a keystroke can mark Good *)

Lemma get_In (s : string) :
  forall (i : nat) (c : ascii),
    String.get i s = Some c -> In c (list_ascii_of_string s).
Proof.
  induction s as [|a s IH]; intros i c H; [discriminate|].
  destruct i as [|i]; simpl in H.
  - inversion H. left. reflexivity.
  - right. eauto.
Qed.

Lemma high_byte_encoding (c : ascii) :
  128 <= byteZ c ->
  exists a b : ascii, string_of_byte c = String a (String b "") /\ 192 <= byteZ a.
Proof.
  intros Hc. pose proof (byteZ_range c) as Hr.
  unfold string_of_byte, string_of_rune.
  assert ((0 <=? byteZ c) && (byteZ c <? 128) = false) as ->
    by (apply andb_false_iff; right; apply Z.ltb_ge; lia).
  assert ((0 <=? byteZ c) && (byteZ c <? 2048) = true) as ->
    by (apply andb_true_iff; split; [apply Z.leb_le|apply Z.ltb_lt]; lia).
  do 2 eexists. split; [reflexivity|].
  rewrite Z.shiftr_div_pow2 by lia. change (2 ^ 6) with 64.
  assert (byteZ c / 64 = 2 \/ byteZ c / 64 = 3) as [->| ->]
    by (Z.to_euclidean_division_equations; lia);
    vm_compute; discriminate.
Qed.

(** An accepted key is marked Good only when it is the one-character
    string of the buffer byte, and that byte is of the alphabet. *)
Lemma verdict_Good_inv (c : ascii) (key : string) :
  accepted key = true -> verdict c key = Good ->
  key = String c "" /\ in_alphabet c.
Proof.
  intros Hacc Hv. unfold accepted in Hacc.
  apply andb_true_iff in Hacc as [_ Hcon].
  unfold verdict in Hv.
  destruct (String.eqb_spec (string_of_byte c) key) as [Heq|]; [|discriminate].
  destruct (Z.lt_ge_cases (byteZ c) 128) as [Hlow|Hhigh].
  - assert (string_of_byte c = String c "") as Hs.
    { unfold string_of_byte, string_of_rune. pose proof (byteZ_range c).
      assert ((0 <=? byteZ c) && (byteZ c <? 128) = true) as ->
        by (apply andb_true_iff; split; [apply Z.leb_le|apply Z.ltb_lt]; lia).
      rewrite byte_of_byteZ. reflexivity. }
    rewrite Hs in Heq. subst key. split; [reflexivity|].
    apply ok_inputs_alphabet. eapply Contains_In; [exact Hcon|]. left. reflexivity.
  - exfalso. destruct (high_byte_encoding c Hhigh) as (a & b & Hs & Ha).
    rewrite Hs in Heq. subst key.
    assert (in_alphabet a) as [H|H].
    { apply ok_inputs_alphabet. eapply Contains_In; [exact Hcon|]. left. reflexivity. }
    all: lia.
Qed.

Lemma good_in_alphabet_Update (m m' : Model) (msg : Msg) (cmd : Cmd) :
  good_in_alphabet m -> Update m msg = Ok (m', cmd) -> good_in_alphabet m'.
Proof.
  intros Hg H. destruct msg as [key| | | |].
  2-5: rewrite Update_not_key in H by discriminate; inversion H; subst; exact Hg.
  rewrite Update_key in H. destruct (is_abort key) eqn:Hab.
  { destruct (Quit m) as [m1|] eqn:HQ; [|discriminate]. cbn [bind] in H.
    inversion H; subst. apply Quit_frame in HQ as (Hch & _ & Hin & _).
    intros i c. rewrite Hch, Hin. apply Hg. }
  destruct (Contains ok_inputs key) eqn:Hcon; [|inversion H; subst; exact Hg].
  destruct (index_byte (chars m) (current m)) as [c|] eqn:Hc; [|discriminate].
  pose proof (index_byte_get _ _ _ Hc) as Hget. cbn [bind] in H.
  destruct (store_list _ _ _) as [inputs'|] eqn:Hs; [|discriminate].
  apply store_list_inv in Hs as [Hr ->]. cbn [bind] in H.
  assert (forall i c', <[Z.to_nat (current m) := verdict c key]> (inputs m) !! i = Some Good ->
                       String.get i (chars m) = Some c' -> in_alphabet c') as Hmark.
  { intros i c' Hi Hg'.
    destruct (decide (i = Z.to_nat (current m))) as [->|Hne].
    - rewrite list_lookup_insert_eq in Hi by lia.
      assert (c' = c) as -> by congruence.
      apply (verdict_Good_inv c key); [|congruence].
      unfold accepted. rewrite Hab, Hcon. reflexivity.
    - rewrite list_lookup_insert_ne in Hi by congruence. eapply Hg; eauto. }
  destruct (current m =? len (chars m) - 1).
  - destruct (Quit _) as [m1|] eqn:HQ; [|discriminate]. cbn [bind] in H.
    inversion H; subst. apply Quit_frame in HQ as (Hch & _ & Hin & _).
    intros i c'. rewrite Hch, Hin. apply Hmark.
  - inversion H; subst. exact Hmark.
Qed.

Lemma reachable_good_in_alphabet (m0 m : Model) :
  good_in_alphabet m0 -> reachable m0 m -> good_in_alphabet m.
Proof.
  intros H0. induction 1 as [|m msg m' cmd _ IH Hstep]; [exact H0|].
  eapply good_in_alphabet_Update; eauto.
Qed.

(** X2: what [Update] writes for an accepted keystroke. The status of the
    byte under the cursor becomes Good exactly when the key is the
    one-character string of that byte and the byte is a space or a
    lowercase letter, and Bad otherwise: a key of several characters or of
    none, and any key on a buffer byte outside the alphabet (a line break, a
    capital, a digit), is marked wrong. *)
Theorem X2_correct_keystroke (m m' : Model) (key : string) (c : ascii) (cmd : Cmd) :
  accepted key = true ->
  index_byte (chars m) (current m) = Ok c ->
  Update m (KeyMsg key) = Ok (m', cmd) ->
  (inputs m' !! Z.to_nat (current m) = Some Good \/
   inputs m' !! Z.to_nat (current m) = Some Bad) /\
  (inputs m' !! Z.to_nat (current m) = Some Good
   <-> key = String c "" /\ in_alphabet c) /\
  (String.length key <> 1%nat -> inputs m' !! Z.to_nat (current m) = Some Bad) /\
  (~ in_alphabet c -> inputs m' !! Z.to_nat (current m) = Some Bad).
Proof.
  intros Hacc Hc H.
  assert (inputs m' !! Z.to_nat (current m) = Some (verdict c key)) as Hst.
  { pose proof Hacc as Hacc'. unfold accepted in Hacc'.
    apply andb_true_iff in Hacc' as [Hab Hcon]. apply negb_true_iff in Hab.
    rewrite Update_key, Hab, Hcon, Hc in H. cbn [bind] in H.
    destruct (store_list _ _ _) as [inputs'|] eqn:Hs; [|discriminate].
    apply store_list_inv in Hs as [Hr ->]. cbn [bind] in H.
    assert (inputs m' = <[Z.to_nat (current m) := verdict c key]> (inputs m)) as ->.
    { destruct (current m =? len (chars m) - 1).
      - destruct (Quit _) as [m1|] eqn:HQ; [|discriminate]. cbn [bind] in H.
        inversion H; subst. apply Quit_frame in HQ as (_ & _ & Hin & _). exact Hin.
      - inversion H; subst. reflexivity. }
    apply list_lookup_insert_eq. lia. }
  rewrite Hst.
  assert (verdict c key = Good -> key = String c "" /\ in_alphabet c) as Hinv
    by apply (verdict_Good_inv c key Hacc).
  assert (verdict c key = Good \/ verdict c key = Bad) as Hdec.
  { pose proof (verdict_decided c key). destruct (verdict c key); [tauto|auto|auto]. }
  assert (key = String c "" /\ in_alphabet c -> verdict c key = Good) as Hgood.
  { intros [-> [Hb|Hb]]; unfold verdict, string_of_byte, string_of_rune;
      pose proof (byteZ_range c);
      (assert ((0 <=? byteZ c) && (byteZ c <? 128) = true) as ->
         by (apply andb_true_iff; split; [apply Z.leb_le|apply Z.ltb_lt]; lia));
      rewrite byte_of_byteZ, String.eqb_refl; reflexivity. }
  split; [destruct Hdec as [->| ->]; auto|].
  split; [split; [intros Hg; apply Hinv; congruence|intros Hk; f_equal; auto]|].
  split.
  - intros Hlen. destruct Hdec as [Hg| ->]; [|reflexivity].
    destruct (Hinv Hg) as [-> _]. exfalso. apply Hlen. reflexivity.
  - intros Hout. destruct Hdec as [Hg| ->]; [|reflexivity].
    destruct (Hinv Hg) as [_ Hin]. contradiction.
Qed.

Lemma X2_correct_keystroke_witness :
  inputs (mkModel "cat dog" ["cat"; "dog"]
            [Good; Good; Good; Bad; Neutral; Neutral; Neutral]
            4 false (stopwatch.mk 0 1 0 true Millisecond) "") !! Z.to_nat 3
  = Some Bad.
Proof.
  refine (proj1 (proj2 (proj2 (X2_correct_keystroke
            (mkModel "cat dog" ["cat"; "dog"]
               [Good; Good; Good; Neutral; Neutral; Neutral; Neutral]
               3 false (stopwatch.mk 0 1 0 true Millisecond) "")
            (mkModel "cat dog" ["cat"; "dog"]
               [Good; Good; Good; Bad; Neutral; Neutral; Neutral]
               4 false (stopwatch.mk 0 1 0 true Millisecond) "")
            "hi" " "%char cmd_nil _ _ _))) _).
  - reflexivity.
  - reflexivity.
  - vm_compute. reflexivity.
  - simpl. lia.
Defined.

(** X3: on every state the loop reaches from a constructed session, a
    status is Good only at a buffer byte that is a space or a lowercase
    letter: a byte outside the alphabet is never marked Good. *)
Theorem X3_good_only_in_alphabet
    (gs : Z -> option (Z * Z)) (ww : string -> Z -> string)
    (ws : list string) (m0 m : Model) (i : nat) (c : ascii) :
  NewModel gs ww ws = Ok m0 ->
  reachable m0 m ->
  String.get i (chars m) = Some c ->
  inputs m !! i = Some Good ->
  in_alphabet c.
Proof.
  intros H0 Hr Hget Hi.
  assert (good_in_alphabet m0) as Hg0.
  { apply NewModel_inv in H0 as (w & h & _ & -> & _).
    intros j c' Hj _. cbn [inputs] in Hj. apply lookup_replicate in Hj as [Hj _].
    discriminate. }
  exact (reachable_good_in_alphabet m0 m Hg0 Hr i c Hi Hget).
Qed.

Lemma X3_good_only_in_alphabet_witness : in_alphabet "a"%char.
Proof.
  refine (X3_good_only_in_alphabet terminal no_wrap ["cat"; "dog"]
           (mkModel "cat dog" ["cat"; "dog"]
              [Neutral; Neutral; Neutral; Neutral; Neutral; Neutral; Neutral]
              0 false (stopwatch.mk 0 1 0 false Millisecond) "")
           (mkModel "cat dog" ["cat"; "dog"]
              [Good; Good; Good; Neutral; Neutral; Neutral; Neutral]
              3 false (stopwatch.mk 0 1 0 true Millisecond) "")
           1%nat "a"%char _ _ _ _).
  - vm_compute. reflexivity.
  - apply (run_reachable (typing "cat") _ _ cmd_nil). vm_compute. reflexivity.
  - reflexivity.
  - reflexivity.
Defined.

(** ** The accuracy on natural completion *)

Lemma index_list_insert_ne {A : Type} (l : list A) (k : nat) (x : A) (i : Z) :
  Z.to_nat i <> k -> index_list (<[k := x]> l) i = index_list l i.
Proof.
  intros Hne. unfold index_list.
  rewrite length_insert, list_lookup_insert_ne by congruence. reflexivity.
Qed.

Lemma sum_accuracy_insert (l : list Status) (k : nat) (x : Status) :
  forall (n : nat) (index : Z) (acc : float),
    0 <= index -> index + Z.of_nat n <= Z.of_nat k ->
    sum_accuracy n index (<[k := x]> l) acc = sum_accuracy n index l acc.
Proof.
  induction n as [|n IH]; intros index acc Hpos Hle; [reflexivity|].
  cbn [sum_accuracy]. rewrite index_list_insert_ne by lia.
  destruct (index_list l index) as [st|]; [|reflexivity]. cbn [bind].
  apply IH; lia.
Qed.

Lemma accuracy_of_mark (m : Model) (c : ascii) (key : string) :
  accuracy_of (mark m c key) = accuracy_of m.
Proof.
  unfold accuracy_of, mark. cbn [inputs current set_inputs].
  rewrite sum_accuracy_insert by lia. reflexivity.
Qed.

Lemma accuracy_of_Quit (m m' : Model) : Quit m = Ok m' -> accuracy_of m' = accuracy_of m.
Proof.
  intros HQ. apply Quit_frame in HQ as (_ & _ & Hin & Hcur & _).
  unfold accuracy_of. rewrite Hin, Hcur. reflexivity.
Qed.

Lemma Quit_running_inv (m m' : Model) :
  stopwatch.Running (time m) = true -> Quit m = Ok m' ->
  exists (c w : Z) (a : float),
    counts_of m = Ok (c, w) /\ accuracy_of m = Ok a /\
    stats m' =
      Sprintf_stats w (Seconds (stopwatch.Elapsed (time m)))
        (wpm_of c (stopwatch.Elapsed (time m))) (a * float_of_Z 100)%float.
Proof.
  intros Hr HQ. pose proof HQ as HQ'. unfold Quit in HQ'.
  change (time (set_quitting m true)) with (time m) in HQ'.
  rewrite Hr in HQ'. cbn [negb] in HQ'.
  change (counts_of (set_quitting m true)) with (counts_of m) in HQ'.
  change (accuracy_of (set_quitting m true)) with (accuracy_of m) in HQ'.
  destruct (counts_of m) as [[c w]|] eqn:Hc; [|discriminate]. cbn [bind] in HQ'.
  destruct (accuracy_of m) as [a|] eqn:Ha; [|discriminate].
  exists c, w, a. repeat split. eapply Quit_summary; eauto.
Qed.

(** X4: the last keystroke does not count in the accuracy. When an accepted
    key at the last index ends the session with the stopwatch running, the
    accuracy printed in the summary is the one of the session before that
    key: it is computed over the indices below the cursor, which stays on
    the last index, so typing the last character right or wrong gives the
    same accuracy. *)
Theorem X4_last_key_not_in_accuracy (m m' : Model) (key : string) (cmd : Cmd) :
  accepted key = true ->
  current m = len (chars m) - 1 ->
  stopwatch.Running (time m) = true ->
  Update m (KeyMsg key) = Ok (m', cmd) ->
  accuracy_of m' = accuracy_of m /\
  exists (c w : Z) (a : float),
    accuracy_of m = Ok a /\
    stats m' =
      Sprintf_stats w (Seconds (stopwatch.Elapsed (time m)))
        (wpm_of c (stopwatch.Elapsed (time m))) (a * float_of_Z 100)%float.
Proof.
  intros Hacc Hlast Hrun H.
  unfold accepted in Hacc. apply andb_true_iff in Hacc as [Hab Hcon].
  apply negb_true_iff in Hab.
  rewrite Update_key, Hab, Hcon in H.
  destruct (index_byte (chars m) (current m)) as [b|] eqn:Hb; [|discriminate].
  cbn [bind] in H.
  destruct (store_list _ _ _) as [inputs'|] eqn:Hs; [|discriminate].
  apply store_list_inv in Hs as [_ ->]. cbn [bind] in H.
  fold (mark m b key) in H.
  apply Z.eqb_eq in Hlast. rewrite Hlast in H.
  destruct (Quit (mark m b key)) as [m1|] eqn:HQ; [|discriminate]. cbn [bind] in H.
  inversion H; subst.
  split; [rewrite (accuracy_of_Quit _ _ HQ); apply accuracy_of_mark|].
  destruct (Quit_running_inv (mark m b key) m' Hrun HQ) as (c & w & a & _ & Ha & Hst).
  rewrite accuracy_of_mark in Ha. exists c, w, a. split; [exact Ha|exact Hst].
Qed.

Lemma X4_last_key_not_in_accuracy_witness :
  accuracy_of (mkModel "ab" ["ab"] [Good; Bad] 1 true
                 (stopwatch.mk 2000000 1 2 true Millisecond)
                 (Sprintf_stats 0 (Seconds 2000000) (wpm_of 0 2000000)
                    (float_of_Z 1 / float_of_Z 1 * float_of_Z 100)%float))
  = accuracy_of (mkModel "ab" ["ab"] [Good; Neutral] 1 false
                   (stopwatch.mk 2000000 1 2 true Millisecond) "").
Proof.
  refine (proj1 (X4_last_key_not_in_accuracy
                   (mkModel "ab" ["ab"] [Good; Neutral] 1 false
                      (stopwatch.mk 2000000 1 2 true Millisecond) "")
                   _ "x" tea_Quit _ _ _ _)).
  - reflexivity.
  - reflexivity.
  - reflexivity.
  - vm_compute. reflexivity.
Defined.

(** X5: a session built from a non-empty list of words without spaces, by
    a wrapper that adds no space, never panics: on every state the loop
    reaches, [Update] returns for every message. *)
Theorem X5_no_panic
    (gs : Z -> option (Z * Z)) (ww : string -> Z -> string)
    (ws : list string) (m0 m : Model) (msg : Msg) :
  ws <> [] ->
  Forall (fun w => count_space w = 0%nat) ws ->
  (forall w h, gs 0 = Some (w, h) ->
     (count_space (ww (Join ws " ") w) <= count_space (Join ws " "))%nat) ->
  NewModel gs ww ws = Ok m0 ->
  reachable m0 m ->
  exists (m' : Model) (cmd : Cmd), Update m msg = Ok (m', cmd).
Proof.
  intros Hne Hws Hww H0 Hr.
  apply Update_total. eapply reachable_wf; [|exact Hr].
  eapply NewModel_wf; eauto.
Qed.

Lemma X5_no_panic_witness :
  exists (m' : Model) (cmd : Cmd),
    Update (mkModel "cat dog" ["cat"; "dog"]
              [Good; Good; Good; Neutral; Neutral; Neutral; Neutral]
              3 false (stopwatch.mk 0 1 0 true Millisecond) "")
           (TickMsg 1 0) = Ok (m', cmd).
Proof.
  refine (X5_no_panic terminal no_wrap ["cat"; "dog"]
            (mkModel "cat dog" ["cat"; "dog"]
               [Neutral; Neutral; Neutral; Neutral; Neutral; Neutral; Neutral]
               0 false (stopwatch.mk 0 1 0 false Millisecond) "")
            _ _ _ _ _ _ _).
  - discriminate.
  - repeat constructor.
  - intros w h _. apply Nat.le_refl.
  - vm_compute. reflexivity.
  - apply (run_reachable (typing "cat") _ _ cmd_nil). vm_compute. reflexivity.
Defined.

(** ** The quit command, the finished flag and the frame of [Update] *)

Lemma Update_quit_flag (m m' : Model) (msg : Msg) (cmd : Cmd) :
  Update m msg = Ok (m', cmd) ->
  (cmd = tea_Quit -> quitting m' = true) /\
  (cmd <> tea_Quit -> quitting m' = quitting m /\ stats m' = stats m).
Proof.
  intros H. destruct msg as [key| | | |].
  2-5: rewrite Update_not_key in H by discriminate;
       match type of H with
       | Ok (?a, ?b) = _ => assert (m' = a /\ cmd = b) as [-> ->] by (split; congruence)
       end;
       split; [intros Hq; exfalso; exact (stopwatch_no_quit _ _ Hq)|auto].
  rewrite Update_key in H. destruct (is_abort key).
  { destruct (Quit m) as [m1|] eqn:HQ; [|discriminate]. cbn [bind] in H.
    inversion H; subst. split; [intros _; apply (Quit_frame _ _ HQ)|congruence]. }
  destruct (Contains ok_inputs key).
  2:{ inversion H; subst. split; [discriminate|auto]. }
  destruct (index_byte (chars m) (current m)) as [c|]; [|discriminate].
  cbn [bind] in H.
  destruct (store_list _ _ _) as [inputs'|]; [|discriminate]. cbn [bind] in H.
  destruct (current m =? len (chars m) - 1).
  - destruct (Quit _) as [m1|] eqn:HQ; [|discriminate]. cbn [bind] in H.
    inversion H; subst. split; [intros _; apply (Quit_frame _ _ HQ)|congruence].
  - inversion H; subst. split; [|auto].
    destruct ((current m =? 0) && negb (stopwatch.Running (time m))); discriminate.
Qed.

Lemma run_quit_flag (msgs : list Msg) :
  forall (m m' : Model) (cmd : Cmd),
    run m msgs = Ok (m', cmd) ->
    (cmd = tea_Quit -> quitting m' = true) /\
    (cmd <> tea_Quit -> quitting m' = quitting m /\ stats m' = stats m).
Proof.
  induction msgs as [|msg rest IH]; intros m m' cmd H.
  - inversion H; subst. split; [discriminate|auto].
  - cbn [run] in H. destruct (Update m msg) as [[m1 c1]|] eqn:Hu; [|discriminate].
    cbn [bind snd fst] in H.
    destruct (Update_quit_flag _ _ _ _ Hu) as [Hq Hn].
    destruct c1;
      try (destruct (IH _ _ _ H) as [Hq' Hn']; split; [exact Hq'|];
           intros Hc; destruct (Hn' Hc) as [-> ->]; apply Hn; discriminate).
    inversion H; subst. split; [exact Hq|congruence].
Qed.

(** X7: the quit command and the finished flag go together. A step of
    [Update] that returns [tea.Quit] has set the flag; any other step leaves
    the flag and the summary as they were. So a run of the loop from a
    constructed session ends with the flag set exactly when it ends with
    [tea.Quit], and until then the summary is empty. *)
Theorem X7_quit_sets_finished :
  (forall (m m' : Model) (msg : Msg) (cmd : Cmd),
     Update m msg = Ok (m', cmd) ->
     (cmd = tea_Quit -> quitting m' = true) /\
     (cmd <> tea_Quit -> quitting m' = quitting m /\ stats m' = stats m)) /\
  (forall gs ww ws (m0 m : Model) (msgs : list Msg) (cmd : Cmd),
     NewModel gs ww ws = Ok m0 ->
     run m0 msgs = Ok (m, cmd) ->
     (quitting m = true <-> cmd = tea_Quit) /\
     (cmd <> tea_Quit -> stats m = "")).
Proof.
  split; [exact Update_quit_flag|].
  intros gs ww ws m0 m msgs cmd H0 Hrun.
  apply NewModel_inv in H0 as (w & h & _ & Hm0 & _).
  destruct (run_quit_flag msgs _ _ _ Hrun) as [Hq Hn].
  assert (quitting m0 = false /\ stats m0 = "") as [Hq0 Hs0] by (rewrite Hm0; auto).
  split; [split; [|exact Hq]|].
  - intros Ht. destruct cmd; try reflexivity;
      (destruct Hn as [Hn _]; [discriminate|congruence]).
  - intros Hc. destruct (Hn Hc) as [_ ->]. exact Hs0.
Qed.

Lemma X7_quit_sets_finished_witness :
  quitting (mkModel "ab" ["ab"] [Good; Neutral] 1 false
              (stopwatch.mk 0 1 0 false Millisecond) "")
  = quitting (mkModel "ab" ["ab"] [Neutral; Neutral] 0 false
                (stopwatch.mk 0 1 0 false Millisecond) "") /\
  stats (mkModel "ab" ["ab"] [Good; Neutral] 1 false
           (stopwatch.mk 0 1 0 false Millisecond) "")
  = stats (mkModel "ab" ["ab"] [Neutral; Neutral] 0 false
             (stopwatch.mk 0 1 0 false Millisecond) "").
Proof.
  refine (proj2 (proj1 X7_quit_sets_finished
                   (mkModel "ab" ["ab"] [Neutral; Neutral] 0 false
                      (stopwatch.mk 0 1 0 false Millisecond) "")
                   _ (KeyMsg "a") (cmd_Start 1 0 Millisecond) _) _).
  - reflexivity.
  - discriminate.
Defined.

(** X8: what a message can change. A key message never changes the buffer,
    the words or the stopwatch (its elapsed time and running flag); any
    other message changes nothing but the stopwatch. *)
Theorem X8_frame (m m' : Model) (msg : Msg) (cmd : Cmd) :
  Update m msg = Ok (m', cmd) ->
  chars m' = chars m /\ words m' = words m /\
  match msg with
  | KeyMsg _ => time m' = time m
  | _ =>
    inputs m' = inputs m /\ current m' = current m /\
    quitting m' = quitting m /\ stats m' = stats m
  end.
Proof.
  intros H. pose proof (Update_step _ _ _ _ H) as (Hch & Hws & _).
  split; [exact Hch|]. split; [exact Hws|].
  destruct msg as [key| | | |].
  2-5: rewrite Update_not_key in H by discriminate; inversion H; subst; auto.
  rewrite Update_key in H. destruct (is_abort key).
  { destruct (Quit m) as [m1|] eqn:HQ; [|discriminate]. cbn [bind] in H.
    inversion H; subst. apply (Quit_frame _ _ HQ). }
  destruct (Contains ok_inputs key); [|inversion H; reflexivity].
  destruct (index_byte (chars m) (current m)) as [c|]; [|discriminate].
  cbn [bind] in H.
  destruct (store_list _ _ _) as [inputs'|]; [|discriminate]. cbn [bind] in H.
  destruct (current m =? len (chars m) - 1).
  - destruct (Quit _) as [m1|] eqn:HQ; [|discriminate]. cbn [bind] in H.
    inversion H; subst. apply Quit_frame in HQ as (_ & _ & _ & _ & -> & _). reflexivity.
  - inversion H; subst. reflexivity.
Qed.

Lemma X8_frame_witness :
  time (mkModel "ab" ["ab"] [Good; Neutral] 1 false
          (stopwatch.mk 0 1 0 false Millisecond) "")
  = stopwatch.mk 0 1 0 false Millisecond.
Proof.
  exact (proj2 (proj2 (X8_frame
                   (mkModel "ab" ["ab"] [Neutral; Neutral] 0 false
                      (stopwatch.mk 0 1 0 false Millisecond) "")
                   (mkModel "ab" ["ab"] [Good; Neutral] 1 false
                      (stopwatch.mk 0 1 0 false Millisecond) "")
                   (KeyMsg "a") (cmd_Start 1 0 Millisecond) eq_refl))).
Defined.

(** ** Word verdicts, word by word *)

Lemma decode_ascii (c : ascii) (t : string) :
  byteZ c < 128 -> DecodeRuneInString (String c t) = (byteZ c, 1%nat).
Proof.
  intros H. unfold DecodeRuneInString.
  apply Z.ltb_lt in H. rewrite H. reflexivity.
Qed.

Lemma range_from_ascii (index : Z) (c : ascii) (t : string) :
  byteZ c < 128 ->
  range_from 0 index (String c t) = (index, byteZ c) :: range_from 0 (index + 1) t.
Proof.
  intros H. rewrite range_from_decode, (decode_ascii c t H). reflexivity.
Qed.

Lemma status_at_tail (l : list Status) (k : nat) :
  status_at (tail l) (Z.of_nat k) = status_at l (Z.of_nat (S k)).
Proof.
  unfold status_at. rewrite !Nat2Z.id, lookup_tail. reflexivity.
Qed.

Lemma word_verdict_cons (st : Status) (w : list Status) (flag : Status) :
  flag <> Neutral ->
  match (match st with Good => flag | _ => Bad end) with
  | Good => word_verdict w
  | _ => Bad
  end
  = match flag with Good => word_verdict (st :: w) | _ => Bad end.
Proof.
  intros Hf. unfold word_verdict. cbn [forallb].
  destruct st, flag; cbn [Status_eqb andb]; try reflexivity; try contradiction;
    destruct (forallb _ w); reflexivity.
Qed.

Lemma word_flags_ascii (s : string) :
  forall (l : list Status) (index : Z) (f : Z -> Status) (flag : Status),
    is_ascii s = true -> flag <> Neutral ->
    (forall k : nat, (k < String.length s)%nat ->
       f (index + Z.of_nat k) = status_at l (Z.of_nat k)) ->
    exists w rest,
      word_statuses s l = w :: rest /\
      word_flags (range_from 0 index s) f flag
      = match flag with Good => word_verdict w | _ => Bad end :: map word_verdict rest.
Proof.
  induction s as [|c t IH]; intros l index f flag Ha Hf Hal.
  - exists [], []. split; [reflexivity|]. simpl. destruct flag; tauto.
  - cbn [is_ascii] in Ha. apply andb_true_iff in Ha as [Hc Ht]. apply Z.ltb_lt in Hc.
    rewrite (range_from_ascii index c t Hc). cbn [word_flags word_statuses].
    rewrite byteZ_space.
    assert (forall k : nat, (k < String.length t)%nat ->
              f (index + 1 + Z.of_nat k) = status_at (tail l) (Z.of_nat k)) as Hal'.
    { intros k Hk. rewrite status_at_tail, <- Hal by (simpl; lia). f_equal. lia. }
    destruct (byteZ c =? 32).
    + destruct (IH (tail l) (index + 1) f Good Ht ltac:(discriminate) Hal')
        as (w & rest & Hw & Hfl).
      exists [], (w :: rest). rewrite Hw. split; [reflexivity|].
      rewrite Hfl. cbn [map]. f_equal. unfold word_verdict. simpl.
      destruct flag; tauto.
    + assert (f index = status_at l 0) as Hf0.
      { rewrite <- (Z.add_0_r index). apply (Hal 0%nat). simpl. lia. }
      rewrite Hf0.
      destruct (IH (tail l) (index + 1) f
                  (match status_at l 0 with Good => flag | _ => Bad end) Ht
                  ltac:(destruct (status_at l 0); [discriminate|exact Hf|discriminate]) Hal')
        as (w & rest & Hw & Hfl).
      rewrite Hw. exists (status_at l 0 :: w), rest. split; [reflexivity|].
      rewrite Hfl. f_equal. apply word_verdict_cons. exact Hf.
Qed.

Lemma word_verdict_Good (w : list Status) :
  word_verdict w = Good <-> Forall (fun st => st = Good) w.
Proof.
  unfold word_verdict. induction w as [|st w IH].
  - split; [constructor|reflexivity].
  - cbn [forallb]. rewrite Forall_cons.
    destruct st; cbn [Status_eqb andb].
    + split; [discriminate|intros [H _]; discriminate H].
    + rewrite IH. tauto.
    + split; [discriminate|intros [H _]; discriminate H].
Qed.

(** X9: for a buffer of ASCII bytes with one status per byte, the verdicts
    [Quit] computes are, word by word, Good when every character of the
    space-delimited word is marked Good and Bad otherwise; an empty word
    (between two spaces) is Good. *)
Theorem X9_word_is_good_iff_all_good (m : Model) :
  is_ascii (chars m) = true ->
  List.length (inputs m) = String.length (chars m) ->
  typed_of m = Ok (map word_verdict (word_statuses (chars m) (inputs m))) /\
  word_verdict [] = Good /\
  forall w : list Status, word_verdict w = Good <-> Forall (fun st => st = Good) w.
Proof.
  intros Ha Hlen. split; [|split; [reflexivity|]].
  - rewrite (typed_of_spec m Hlen). f_equal. unfold range_string.
    destruct (word_flags_ascii (chars m) (inputs m) 0 (status_at (inputs m)) Good Ha
                ltac:(discriminate) ltac:(intros; reflexivity))
      as (w & rest & Hw & Hfl).
    rewrite Hfl, Hw. reflexivity.
  - exact word_verdict_Good.
Qed.

Lemma X9_word_is_good_iff_all_good_witness :
  typed_of (mkModel "cat dog" ["cat"; "dog"]
              [Good; Good; Good; Bad; Good; Bad; Good]
              6 true (stopwatch.mk 0 1 0 true Millisecond) "")
  = Ok [Good; Bad].
Proof.
  exact (proj1 (X9_word_is_good_iff_all_good
                  (mkModel "cat dog" ["cat"; "dog"]
                     [Good; Good; Good; Bad; Good; Bad; Good]
                     6 true (stopwatch.mk 0 1 0 true Millisecond) "")
                  eq_refl eq_refl)).
Defined.

(** ** A buffer typed without a mistake *)

Lemma word_flags_all_good (rs : list (Z * Z)) (f : Z -> Status) :
  Forall (fun p => f (fst p) = Good) rs ->
  word_flags rs f Good = replicate (S (space_runes rs)) Good.
Proof.
  induction 1 as [|[i r] rest Hi _ IH]; [reflexivity|].
  cbn [word_flags space_runes]. simpl in Hi. rewrite Hi.
  destruct (r =? 32); rewrite IH; reflexivity.
Qed.

Lemma good_counts_replicate (ws : list string) :
  good_chars (replicate (List.length ws) Good) ws = total_len ws /\
  good_words (replicate (List.length ws) Good) = Z.of_nat (List.length ws).
Proof.
  induction ws as [|w ws [IH1 IH2]]; [split; reflexivity|].
  cbn [List.length replicate good_chars good_words total_len].
  rewrite IH1, IH2. split; [reflexivity|lia].
Qed.

(** X10: when every status is Good and the words are as many as the
    space-delimited segments of the buffer, the two counting loops of
    [Quit] give every word as good and, as good characters, the sum of the
    lengths of the words (the spaces are not counted). *)
Theorem X10_perfect_run (m : Model) :
  List.length (inputs m) = String.length (chars m) ->
  List.length (words m) = S (count_space (chars m)) ->
  Forall (fun st => st = Good) (inputs m) ->
  typed_of m = Ok (replicate (List.length (words m)) Good) /\
  counts_of m = Ok (total_len (words m), Z.of_nat (List.length (words m))).
Proof.
  intros Hlen Hws Hall.
  assert (typed_of m = Ok (replicate (List.length (words m)) Good)) as Ht.
  { rewrite (typed_of_spec m Hlen), word_flags_all_good, range_string_spaces, Hws;
      [reflexivity|].
    eapply Forall_impl; [apply range_string_indices|].
    intros [i r] Hi. simpl in *. unfold status_at.
    destruct (inputs m !! Z.to_nat i) as [st|] eqn:Hl.
    - exact (Forall_lookup_1 _ _ _ _ Hall Hl).
    - apply lookup_ge_None in Hl. unfold len in Hi. lia. }
  split; [exact Ht|]. unfold counts_of. rewrite Ht. cbn [bind].
  rewrite (count_typed_spec _ (words m) 0%nat) by (rewrite length_replicate; simpl; lia).
  rewrite drop_0. destruct (good_counts_replicate (words m)) as [-> ->].
  reflexivity.
Qed.

Lemma X10_perfect_run_witness :
  counts_of (mkModel "cat dog" ["cat"; "dog"]
               [Good; Good; Good; Good; Good; Good; Good]
               6 true (stopwatch.mk 0 1 0 true Millisecond) "")
  = Ok (6, 2).
Proof.
  refine (proj2 (X10_perfect_run
                   (mkModel "cat dog" ["cat"; "dog"]
                      [Good; Good; Good; Good; Good; Good; Good]
                      6 true (stopwatch.mk 0 1 0 true Millisecond) "") _ _ _)).
  - reflexivity.
  - reflexivity.
  - repeat constructor.
Defined.

(** ** [Render] and [View] *)

Lemma style_at_total (m : Model) (index : Z) :
  0 <= index < Z.of_nat (List.length (inputs m)) ->
  exists sty, style_at m index = Ok sty.
Proof.
  intros H. unfold style_at.
  destruct (index_list_Ok (inputs m) index H) as (st & _ & ->). cbn [bind]. eauto.
Qed.

Lemma Render_loop_total (lr : Style -> string -> string) (m : Model) (rs : list (Z * Z)) :
  Forall (fun p => 0 <= fst p < Z.of_nat (List.length (inputs m))) rs ->
  forall rendered, exists s, Render_loop lr rs m rendered = Ok s.
Proof.
  induction 1 as [|[i r] rest Hi _ IH]; intros rendered; cbn [Render_loop]; [eauto|].
  destruct (style_at_total m i Hi) as [sty ->]. cbn [bind]. apply IH.
Qed.

Lemma Render_total (lr : Style -> string -> string) (m : Model) :
  List.length (inputs m) = String.length (chars m) ->
  exists s, Render lr m = Ok s.
Proof.
  intros Hlen. apply Render_loop_total.
  eapply Forall_impl; [apply range_string_indices|].
  intros p Hp. simpl in Hp. unfold len in Hp. lia.
Qed.

(** X11: on every state the loop reaches from a constructed session,
    whatever the words and the styling, [Render] and [View] return without
    a panic; once the session is finished, the view is the rendered buffer,
    an empty line and the summary. *)
Theorem X11_view_never_panics
    (gs : Z -> option (Z * Z)) (ww : string -> Z -> string)
    (lr : Style -> string -> string) (ws : list string) (m0 m : Model) :
  NewModel gs ww ws = Ok m0 ->
  reachable m0 m ->
  exists r v : string,
    Render lr m = Ok r /\ View lr m = Ok v /\
    (quitting m = true -> v = r ++ nl ++ nl ++ stats m).
Proof.
  intros H0 Hr.
  destruct (Render_total lr m (reachable_lengths _ _ _ _ _ H0 Hr)) as [r HR].
  unfold View. rewrite HR. cbn [bind].
  destruct (quitting m); eexists r, _; (split; [reflexivity|]);
    (split; [reflexivity|]); [reflexivity|discriminate].
Qed.

Lemma X11_view_never_panics_witness :
  exists r v : string,
    Render plain (mkModel "ab" ["ab"] [Good; Neutral] 1 true
                    (stopwatch.mk 0 1 0 false Millisecond) "") = Ok r /\
    View plain (mkModel "ab" ["ab"] [Good; Neutral] 1 true
                  (stopwatch.mk 0 1 0 false Millisecond) "") = Ok v /\
    (true = true -> v = r ++ nl ++ nl ++ "").
Proof.
  refine (X11_view_never_panics terminal no_wrap plain ["ab"]
            (mkModel "ab" ["ab"] [Neutral; Neutral] 0 false
               (stopwatch.mk 0 1 0 false Millisecond) "")
            (mkModel "ab" ["ab"] [Good; Neutral] 1 true
               (stopwatch.mk 0 1 0 false Millisecond) "") _ _).
  - vm_compute. reflexivity.
  - apply (run_reachable [KeyMsg "a"; KeyMsg "esc"] _ _ tea_Quit). vm_compute. reflexivity.
Defined.

Lemma append_one (a : string) (c : ascii) (t : string) :
  (a ++ String c "") ++ t = a ++ String c t.
Proof. induction a as [|x a IH]; simpl; [reflexivity|]. rewrite IH. reflexivity. Qed.

Lemma append_empty (a : string) : a ++ "" = a.
Proof. induction a as [|x a IH]; simpl; [reflexivity|]. rewrite IH. reflexivity. Qed.

Lemma string_of_rune_ascii (c : ascii) :
  byteZ c < 128 -> string_of_rune (byteZ c) = String c "".
Proof.
  intros H. unfold string_of_rune. pose proof (byteZ_range c).
  assert ((0 <=? byteZ c) && (byteZ c <? 128) = true) as ->
    by (apply andb_true_iff; split; [apply Z.leb_le|apply Z.ltb_lt]; lia).
  rewrite byte_of_byteZ. reflexivity.
Qed.

Lemma Render_loop_plain (m : Model) (s : string) :
  forall (index : Z) (rendered : string),
    is_ascii s = true ->
    0 <= index -> index + len s <= Z.of_nat (List.length (inputs m)) ->
    Render_loop plain (range_from 0 index s) m rendered = Ok (rendered ++ s).
Proof.
  induction s as [|c t IH]; intros index rendered Ha Hpos Hle.
  - simpl. rewrite append_empty. reflexivity.
  - cbn [is_ascii] in Ha. apply andb_true_iff in Ha as [Hc Ht]. apply Z.ltb_lt in Hc.
    assert (len (String c t) = len t + 1) as Hl by (unfold len; simpl String.length; lia).
    assert (0 <= len t) by (unfold len; lia).
    rewrite (range_from_ascii index c t Hc). cbn [Render_loop].
    destruct (style_at_total m index) as [sty ->]; [lia|]. cbn [bind].
    rewrite IH by (auto; lia). unfold plain.
    rewrite (string_of_rune_ascii c Hc), append_one. reflexivity.
Qed.

(** X12: without styling, [Render] gives back the buffer: for a buffer of
    ASCII bytes with one status per byte, the rendered text is the buffer
    itself, each character once and in order. *)
Theorem X12_plain_render_is_buffer (m : Model) :
  is_ascii (chars m) = true ->
  List.length (inputs m) = String.length (chars m) ->
  Render plain m = Ok (chars m).
Proof.
  intros Ha Hlen. unfold Render, range_string.
  rewrite Render_loop_plain by (auto; unfold len; lia). reflexivity.
Qed.

Lemma X12_plain_render_is_buffer_witness :
  Render plain (mkModel "cat dog" ["cat"; "dog"]
                  [Good; Bad; Good; Neutral; Neutral; Neutral; Neutral]
                  3 false (stopwatch.mk 0 1 0 true Millisecond) "")
  = Ok "cat dog".
Proof.
  exact (X12_plain_render_is_buffer
           (mkModel "cat dog" ["cat"; "dog"]
              [Good; Bad; Good; Neutral; Neutral; Neutral; Neutral]
              3 false (stopwatch.mk 0 1 0 true Millisecond) "") eq_refl eq_refl).
Defined.

(** X13: the styles of an unfinished session. On every state the loop
    reaches from a constructed session before it is finished, a character
    before the cursor is drawn green when its status is Good and red when
    it is Bad, the character under the cursor is underlined, and the
    characters after it have no style. *)
Theorem X13_styles
    (gs : Z -> option (Z * Z)) (ww : string -> Z -> string)
    (ws : list string) (m0 m : Model) (index : Z) :
  NewModel gs ww ws = Ok m0 ->
  reachable m0 m ->
  quitting m = false ->
  0 <= index < len (chars m) ->
  (index < current m ->
   (status_at (inputs m) index = Good /\ style_at m index = Ok goodStyle) \/
   (status_at (inputs m) index = Bad /\ style_at m index = Ok badStyle)) /\
  (index = current m -> style_at m index = Ok mainStyle_Underline) /\
  (current m < index -> style_at m index = Ok zero_Style).
Proof.
  intros H0 Hr Hq Hi.
  pose proof (reachable_lengths _ _ _ _ _ H0 Hr) as Hlen.
  pose proof (reachable_boundary m0 m (boundary_NewModel _ _ _ _ H0) Hr) as Hb.
  assert (0 <= index < Z.of_nat (List.length (inputs m))) as Hi'
    by (unfold len in Hi; lia).
  destruct (index_list_Ok (inputs m) index Hi') as (st & Hst & Hidx).
  destruct (Hb (Z.to_nat index) st Hst) as (H1 & H2 & H3).
  unfold style_at, status_at. rewrite Hidx, Hst. cbn [bind].
  rewrite Z2Nat.id in * by lia.
  split; [|split].
  - intros Hlt. specialize (H1 Hlt). destruct st; [contradiction|left|right]; auto.
  - intros Heq. rewrite (H3 Heq Hq). apply Z.eqb_eq in Heq. rewrite Heq. reflexivity.
  - intros Hgt. rewrite (H2 Hgt).
    assert ((index =? current m) = false) as -> by (apply Z.eqb_neq; lia).
    reflexivity.
Qed.

Lemma X13_styles_witness :
  style_at (mkModel "cat dog" ["cat"; "dog"]
              [Good; Good; Good; Neutral; Neutral; Neutral; Neutral]
              3 false (stopwatch.mk 0 1 0 true Millisecond) "") 3
  = Ok mainStyle_Underline.
Proof.
  refine (proj1 (proj2 (X13_styles terminal no_wrap ["cat"; "dog"]
           (mkModel "cat dog" ["cat"; "dog"]
              [Neutral; Neutral; Neutral; Neutral; Neutral; Neutral; Neutral]
              0 false (stopwatch.mk 0 1 0 false Millisecond) "")
           (mkModel "cat dog" ["cat"; "dog"]
              [Good; Good; Good; Neutral; Neutral; Neutral; Neutral]
              3 false (stopwatch.mk 0 1 0 true Millisecond) "")
           3 _ _ _ _)) _).
  - vm_compute. reflexivity.
  - apply (run_reachable (typing "cat") _ _ cmd_nil). vm_compute. reflexivity.
  - reflexivity.
  - unfold len. simpl. lia.
  - reflexivity.
Defined.

(** ** The words of a session: [GetWordsFromFile] and [initialModel] *)

Lemma Split_length (s : string) (sep : ascii) :
  List.length (Split s sep) = S (count_byte sep s).
Proof.
  induction s as [|c t IH]; [reflexivity|]. simpl.
  destruct (Ascii.eqb c sep); simpl; [rewrite IH; reflexivity|].
  destruct (Split t sep); simpl in *; lia.
Qed.

Lemma Split_pieces (s : string) (sep : ascii) :
  Forall (fun piece => count_byte sep piece = 0%nat) (Split s sep).
Proof.
  induction s as [|c t IH]; [repeat constructor|]. simpl.
  destruct (Ascii.eqb c sep) eqn:Hc; [constructor; [reflexivity|exact IH]|].
  destruct (Split t sep) as [|piece rest].
  - repeat constructor. simpl. rewrite Hc. reflexivity.
  - inversion IH; subst. constructor; [|assumption]. simpl. rewrite Hc. assumption.
Qed.

Lemma slice_to_Ok {A : Type} (l : list A) (hi : Z) :
  0 <= hi <= Z.of_nat (List.length l) -> slice_to l hi = Ok (take (Z.to_nat hi) l).
Proof.
  intros H. unfold slice_to.
  assert ((0 <=? hi) && (hi <=? Z.of_nat (List.length l)) = true) as ->
    by (apply andb_true_iff; split; apply Z.leb_le; lia).
  reflexivity.
Qed.

Lemma slice_to_Panic {A : Type} (l : list A) (hi : Z) :
  Z.of_nat (List.length l) < hi -> slice_to l hi = Panic "slice bounds out of range".
Proof.
  intros H. unfold slice_to.
  assert ((0 <=? hi) && (hi <=? Z.of_nat (List.length l)) = false) as ->
    by (apply andb_false_iff; right; apply Z.leb_gt; lia).
  reflexivity.
Qed.

Lemma GetWordsFromFile_Ok (rf : string -> option string)
    (sh : list string -> list string) (content : string) :
  (forall l, Permutation (sh l) l) ->
  rf WORD_FILE = Some content ->
  (9 <= count_byte (ascii_of_nat 10) content)%nat ->
  exists ws : list string,
    GetWordsFromFile rf sh = Ok ws /\
    List.length ws = 10%nat /\
    submseteq ws (Split content (ascii_of_nat 10)) /\
    Forall (fun w => count_byte (ascii_of_nat 10) w = 0%nat) ws.
Proof.
  intros Hperm Hrf Hn. unfold GetWordsFromFile. rewrite Hrf.
  pose proof (Permutation_length (Hperm (Split content (ascii_of_nat 10)))) as Hlen.
  rewrite Split_length in Hlen.
  rewrite slice_to_Ok by lia. eexists. split; [reflexivity|].
  change (Z.to_nat 10) with 10%nat. split; [|split].
  - rewrite length_take. lia.
  - rewrite <- (Hperm (Split content (ascii_of_nat 10))) at 2. apply submseteq_take.
  - apply Forall_take. rewrite (Hperm _). apply Split_pieces.
Qed.

(** X14: [GetWordsFromFile] panics when the word file cannot be read, and
    panics on the slice [lines[:10]] when the file holds fewer than nine
    line breaks (fewer than ten lines). Otherwise, [rand.Shuffle] permuting
    the lines, it returns exactly ten words; they are lines of the file, none
    taken more often than the file holds it, and none contains a line
    break. *)
Theorem X14_words_from_file (rf : string -> option string)
    (sh : list string -> list string) :
  (forall l, Permutation (sh l) l) ->
  (rf WORD_FILE = None -> GetWordsFromFile rf sh = Panic "Couldn't read word file.") /\
  (forall content : string,
     rf WORD_FILE = Some content ->
     ((count_byte (ascii_of_nat 10) content < 9)%nat ->
      GetWordsFromFile rf sh = Panic "slice bounds out of range") /\
     ((9 <= count_byte (ascii_of_nat 10) content)%nat ->
      exists ws : list string,
        GetWordsFromFile rf sh = Ok ws /\
        List.length ws = 10%nat /\
        submseteq ws (Split content (ascii_of_nat 10)) /\
        Forall (fun w => count_byte (ascii_of_nat 10) w = 0%nat) ws)).
Proof.
  intros Hperm. split.
  - intros Hrf. unfold GetWordsFromFile. rewrite Hrf. reflexivity.
  - intros content Hrf. split.
    + intros Hn. unfold GetWordsFromFile. rewrite Hrf.
      apply slice_to_Panic.
      rewrite (Permutation_length (Hperm _)), Split_length. lia.
    + apply GetWordsFromFile_Ok; assumption.
Qed.

Lemma X14_words_from_file_witness :
  GetWordsFromFile (fun _ => Some ("a" ++ nl ++ "b" ++ nl ++ "c")) (fun l => l)
  = Panic "slice bounds out of range".
Proof.
  refine (proj1 (proj2 (X14_words_from_file
                          (fun _ => Some ("a" ++ nl ++ "b" ++ nl ++ "c")) (fun l => l) _)
                   _ eq_refl) _).
  - intros l. reflexivity.
  - vm_compute. lia.
Defined.

Lemma count_space_is_count_byte (s : string) : count_space s = count_byte " " s.
Proof. induction s as [|c t IH]; simpl; [reflexivity|]. rewrite IH. reflexivity. Qed.

(** X15: a session from a word file whose lines hold no space never
    panics. If [rand.Shuffle] permutes the lines and the wrapper adds no
    space, then whenever [initialModel] returns a session, [Update] returns
    for every message on every state the loop reaches from it, and the
    session has ten words. *)
Theorem X15_initial_model_is_safe
    (rf : string -> option string) (sh : list string -> list string)
    (gs : Z -> option (Z * Z)) (ww : string -> Z -> string)
    (content : string) (m0 m : Model) (msg : Msg) :
  (forall l, Permutation (sh l) l) ->
  (forall s w, (count_space (ww s w) <= count_space s)%nat) ->
  rf WORD_FILE = Some content ->
  Forall (fun line => count_space line = 0%nat) (Split content (ascii_of_nat 10)) ->
  initialModel rf sh gs ww = Ok m0 ->
  reachable m0 m ->
  List.length (words m) = 10%nat /\
  exists (m' : Model) (cmd : Cmd), Update m msg = Ok (m', cmd).
Proof.
  intros Hperm Hww Hrf Hlines H0 Hr. unfold initialModel in H0.
  destruct (GetWordsFromFile rf sh) as [ws|] eqn:Hws; [|discriminate].
  cbn [bind] in H0.
  unfold GetWordsFromFile in Hws. rewrite Hrf in Hws. unfold slice_to in Hws.
  destruct ((0 <=? 10) && (10 <=? _)) eqn:Hb; [|discriminate].
  apply andb_true_iff in Hb as [_ Hb]. apply Z.leb_le in Hb.
  inversion Hws; subst ws. clear Hws. change (Z.to_nat 10) with 10%nat in *.
  set (ws := take 10 (sh (Split content (ascii_of_nat 10)))) in *.
  assert (List.length ws = 10%nat) as Hlen by (unfold ws; rewrite length_take; lia).
  assert (Forall (fun w => count_space w = 0%nat) ws) as Hsp.
  { unfold ws. apply Forall_take. rewrite (Hperm _). exact Hlines. }
  assert (wf m0) as Hwf0.
  { eapply NewModel_wf; [| exact Hsp | intros w h _; apply Hww | exact H0].
    intros He. rewrite He in Hlen. discriminate. }
  split.
  - destruct (reachable_frame m0 m Hr) as (_ & -> & _).
    apply NewModel_inv in H0 as (w & h & _ & -> & _). exact Hlen.
  - apply Update_total. eapply reachable_wf; eauto.
Qed.

Lemma X15_initial_model_is_safe_witness :
  exists (m' : Model) (cmd : Cmd),
    Update (mkModel "a b c d e f g h i j"
              ["a"; "b"; "c"; "d"; "e"; "f"; "g"; "h"; "i"; "j"]
              (replicate 19 Neutral) 0 false
              (stopwatch.mk 0 1 0 false Millisecond) "")
           (KeyMsg "a") = Ok (m', cmd).
Proof.
  refine (proj2 (X15_initial_model_is_safe
            (fun _ => Some ("a" ++ nl ++ "b" ++ nl ++ "c" ++ nl ++ "d" ++ nl ++ "e" ++ nl
                              ++ "f" ++ nl ++ "g" ++ nl ++ "h" ++ nl ++ "i" ++ nl ++ "j"))
            (fun l => l) terminal no_wrap _
            (mkModel "a b c d e f g h i j"
               ["a"; "b"; "c"; "d"; "e"; "f"; "g"; "h"; "i"; "j"]
               (replicate 19 Neutral) 0 false
               (stopwatch.mk 0 1 0 false Millisecond) "")
            _ (KeyMsg "a") _ _ eq_refl _ _ _)).
  - intros l. reflexivity.
  - intros s w. apply Nat.le_refl.
  - vm_compute. repeat constructor.
  - vm_compute. reflexivity.
  - apply reach_init.
Defined.

(** ** When the stopwatch is started, and what [Quit] leaves alone *)

Lemma stopwatch_no_start (t : stopwatch.Model) (msg : Msg) (id tag iv : Z) :
  snd (stopwatch.Update t msg) <> cmd_Start id tag iv.
Proof.
  destruct msg; simpl;
    repeat match goal with |- context [if ?b then _ else _] => destruct b end;
    simpl; discriminate.
Qed.

(** X16: the stopwatch is asked to start by the first keystroke only. A
    step of [Update] returns the start command exactly when it handles an
    accepted key with the cursor at 0, the stopwatch not running and a
    buffer longer than one byte; the command is then the start of the
    session's own stopwatch. No other event asks for a start, and a buffer
    of one byte never does. *)
Theorem X16_start_on_first_key (m m' : Model) (msg : Msg) (cmd : Cmd) :
  Update m msg = Ok (m', cmd) ->
  ((exists id tag iv : Z, cmd = cmd_Start id tag iv) <->
   (exists key : string,
      msg = KeyMsg key /\ accepted key = true /\ current m = 0 /\
      stopwatch.Running (time m) = false /\ len (chars m) <> 1)) /\
  ((exists id tag iv : Z, cmd = cmd_Start id tag iv) ->
   cmd = stopwatch.Start (time m)).
Proof.
  intros H. destruct msg as [key| | | |].
  2-5: rewrite Update_not_key in H by discriminate;
       match type of H with
       | Ok (?a, ?b) = _ => assert (m' = a /\ cmd = b) as [-> ->] by (split; congruence)
       end;
       split; [split|];
       [ intros (i1 & t1 & v1 & Hc); exfalso; exact (stopwatch_no_start _ _ _ _ _ Hc)
       | intros (key & Hk & _); discriminate Hk
       | intros (i1 & t1 & v1 & Hc); exfalso; exact (stopwatch_no_start _ _ _ _ _ Hc) ].
  rewrite Update_key in H. unfold accepted.
  destruct (is_abort key) eqn:Hab; cbn [negb andb].
  { destruct (Quit m) as [m1|]; [|discriminate]. cbn [bind] in H.
    inversion H; subst. split; [split|].
    - intros (i1 & t1 & v1 & Hc). discriminate.
    - intros (k & Hk & Hf & _). inversion Hk; subst k. rewrite Hab in Hf. discriminate.
    - intros (i1 & t1 & v1 & Hc). discriminate. }
  destruct (Contains ok_inputs key) eqn:Hcon.
  2:{ inversion H; subst. split; [split|].
      - intros (i1 & t1 & v1 & Hc). discriminate.
      - intros (k & Hk & Hf & _). inversion Hk; subst k.
        rewrite Hab, Hcon in Hf. discriminate.
      - intros (i1 & t1 & v1 & Hc). discriminate. }
  destruct (index_byte (chars m) (current m)) as [c|]; [|discriminate].
  cbn [bind] in H.
  destruct (store_list _ _ _) as [inputs'|]; [|discriminate]. cbn [bind] in H.
  destruct (current m =? len (chars m) - 1) eqn:Hlast.
  - destruct (Quit _) as [m1|]; [|discriminate]. cbn [bind] in H.
    inversion H; subst. apply Z.eqb_eq in Hlast. split; [split|].
    + intros (i1 & t1 & v1 & Hc). discriminate.
    + intros (k & _ & _ & H0 & _ & Hl). lia.
    + intros (i1 & t1 & v1 & Hc). discriminate.
  - inversion H; subst. clear H. apply Z.eqb_neq in Hlast.
    destruct (current m =? 0) eqn:Hz; cbn [andb].
    + apply Z.eqb_eq in Hz.
      destruct (stopwatch.Running (time m)) eqn:Hr; cbn [negb].
      * split; [split|].
        -- intros (i1 & t1 & v1 & Hc). discriminate.
        -- intros (k & _ & _ & _ & Hf & _). discriminate.
        -- intros (i1 & t1 & v1 & Hc). discriminate.
      * split; [split|].
        -- intros _. exists key. rewrite Hab, Hcon. repeat split; auto. lia.
        -- intros _. unfold stopwatch.Start. eauto.
        -- intros _. reflexivity.
    + apply Z.eqb_neq in Hz. split; [split|].
      * intros (i1 & t1 & v1 & Hc). discriminate.
      * intros (k & _ & _ & H0 & _). contradiction.
      * intros (i1 & t1 & v1 & Hc). discriminate.
Qed.

Lemma X16_start_on_first_key_witness :
  exists key : string,
    KeyMsg "a" = KeyMsg key /\ accepted key = true /\
    current (mkModel "ab" ["ab"] [Neutral; Neutral] 0 false
               (stopwatch.mk 0 1 0 false Millisecond) "") = 0 /\
    stopwatch.Running (stopwatch.mk 0 1 0 false Millisecond) = false /\
    len "ab" <> 1.
Proof.
  refine (proj1 (proj1 (X16_start_on_first_key
                   (mkModel "ab" ["ab"] [Neutral; Neutral] 0 false
                      (stopwatch.mk 0 1 0 false Millisecond) "")
                   (mkModel "ab" ["ab"] [Good; Neutral] 1 false
                      (stopwatch.mk 0 1 0 false Millisecond) "")
                   (KeyMsg "a") (cmd_Start 1 0 Millisecond) eq_refl)) _).
  exists 1, 0, Millisecond. reflexivity.
Defined.

(** X17: [Quit] only sets the finished flag and writes the summary. It
    never changes the buffer, the words, the statuses or the cursor, and it
    leaves the stopwatch as it was: a running stopwatch is still running
    after [Quit], its elapsed time unchanged. *)
Theorem X17_Quit_frame (m m' : Model) :
  Quit m = Ok m' ->
  chars m' = chars m /\ words m' = words m /\ inputs m' = inputs m /\
  current m' = current m /\ quitting m' = true /\
  stopwatch.Running (time m') = stopwatch.Running (time m) /\
  stopwatch.Elapsed (time m') = stopwatch.Elapsed (time m).
Proof.
  intros HQ. apply Quit_frame in HQ as (H1 & H2 & H3 & H4 & H5 & H6).
  rewrite H5. repeat split; assumption.
Qed.

Lemma X17_Quit_frame_witness :
  stopwatch.Running
    (time (mkModel "ab" ["ab"] [Good; Neutral] 1 true
             (stopwatch.mk 2000000 1 2 true Millisecond)
             (Sprintf_stats 0 (Seconds 2000000) (wpm_of 0 2000000)
                (float_of_Z 1 / float_of_Z 1 * float_of_Z 100)%float)))
  = stopwatch.Running
      (time (mkModel "ab" ["ab"] [Good; Neutral] 1 false
               (stopwatch.mk 2000000 1 2 true Millisecond) "")).
Proof.
  refine (proj1 (proj2 (proj2 (proj2 (proj2 (proj2
            (X17_Quit_frame
               (mkModel "ab" ["ab"] [Good; Neutral] 1 false
                  (stopwatch.mk 2000000 1 2 true Millisecond) "") _ _))))))).
  vm_compute. reflexivity.
Defined.

(** ** The length of the buffer *)





(** ** The statistics of the summary where no line is broken *)

(** X19: the accuracy of the summary. [Quit] sums the numeric values of
    the statuses below the cursor (Good 1, Bad 0, Neutral -1) and divides
    by the cursor; the summary prints the quotient times 100 with one
    decimal. With the cursor at 10 and 8 Good and 2 Bad among the ten
    statuses below it the value is exactly 80, printed "80.0". *)
Theorem X19_accuracy :
  (Status_int Good = 1 /\ Status_int Bad = 0 /\ Status_int Neutral = -1) /\
  (forall m : Model,
     current m <= Z.of_nat (List.length (inputs m)) ->
     accuracy_of m
     = Ok (status_sum (take (Z.to_nat (current m)) (inputs m))
           / float_of_Z (current m))%float) /\
  (forall (m m' : Model) (c w : Z) (a : float),
     stopwatch.Running (time m) = true ->
     counts_of m = Ok (c, w) -> accuracy_of m = Ok a -> Quit m = Ok m' ->
     stats m' =
       Sprintf_stats w (Seconds (stopwatch.Elapsed (time m)))
         (wpm_of c (stopwatch.Elapsed (time m))) (a * float_of_Z 100)%float) /\
  (forall m : Model,
     current m = 10 ->
     count_status Good (take 10 (inputs m)) = 8%nat ->
     count_status Bad (take 10 (inputs m)) = 2%nat ->
     exists a : float,
       accuracy_of m = Ok a /\
       (a * float_of_Z 100)%float = float_of_Z 80 /\
       FormatFloat 1 (a * float_of_Z 100)%float = "80.0").
Proof.
  split; [repeat split|]. split; [|split].
  - intros m Hc. unfold accuracy_of.
    rewrite (sum_accuracy_spec _ _ 0%nat) by lia. reflexivity.
  - exact Quit_summary.
  - intros m Hcur Hg Hb.
    pose proof (count_status_total (take 10 (inputs m))) as Htot.
    assert (List.length (take 10 (inputs m)) <= 10)%nat as Hle
      by (rewrite length_take; lia).
    assert (count_status Neutral (take 10 (inputs m)) = 0%nat) as Hn by lia.
    assert (10 <= List.length (inputs m))%nat as Hlen
      by (rewrite length_take in Htot; lia).
    exists (float_of_Z 8 / float_of_Z 10)%float. split.
    + unfold accuracy_of. rewrite Hcur.
      rewrite (sum_accuracy_spec _ _ 0%nat) by (simpl; lia).
      cbn [bind]. change (Z.to_nat 10) with 10%nat. rewrite drop_0.
      change 0%float with (float_of_Z (Z.of_nat 0)).
      rewrite status_sum_small by (rewrite ?length_take; lia).
      rewrite Hg. reflexivity.
    + split; vm_compute; reflexivity.
Qed.

Lemma X19_accuracy_witness :
  exists a : float,
    accuracy_of (mkModel "hello world x" ["hello"; "world"; "x"]
                   [Good; Good; Bad; Good; Good; Good; Good; Bad; Good; Good;
                    Neutral; Neutral; Neutral]
                   10 false (stopwatch.mk 3000000 1 3 true Millisecond) "") = Ok a /\
    (a * float_of_Z 100)%float = float_of_Z 80 /\
    FormatFloat 1 (a * float_of_Z 100)%float = "80.0".
Proof.
  apply (proj2 (proj2 (proj2 X19_accuracy))); reflexivity.
Defined.

(** X20: the counts and the WPM of the summary. The good character count
    is the sum of the lengths of the words at the positions of the Good
    verdicts ([words[i]] for the verdict of index [i]), and the good word
    count the number of Good verdicts. The WPM is the float64 value of the
    good character count divided by the product of 5 and the elapsed
    minutes; read over the rationals, where grouping does not matter, the
    same expression is the count divided by 5 and then by the minutes. With
    25 good characters and one minute elapsed the WPM is exactly 5. *)
Theorem X20_wpm :
  (forall (typed : list Status) (ws : list string),
     (List.length typed <= List.length ws)%nat ->
     count_typed typed 0 ws 0 0 = Ok (good_chars typed ws, good_words typed)) /\
  (forall (m m' : Model) (c w : Z) (a : float),
     stopwatch.Running (time m) = true ->
     counts_of m = Ok (c, w) -> accuracy_of m = Ok a -> Quit m = Ok m' ->
     stats m' =
       Sprintf_stats w (Seconds (stopwatch.Elapsed (time m)))
         (wpm_of c (stopwatch.Elapsed (time m))) (a * float_of_Z 100)%float) /\
  (forall c d : Z,
     wpm_of c d = wpm_expr float64 c (Minutes d) /\
     wpm_of c d = (float_of_Z c / (float_of_Z 5 * Minutes d))%float) /\
  (forall (c : Z) (minutes : Q),
     (wpm_expr rational c minutes == inject_Z c / 5 / minutes)%Q) /\
  (Minutes Minute = float_of_Z 1 /\
   wpm_of 25 Minute = float_of_Z 5 /\
   (float_of_Z 25 / float_of_Z 5 / Minutes Minute)%float = float_of_Z 5 /\
   FormatFloat 0 (wpm_of 25 Minute) = "5").
Proof.
  split; [|split; [|split; [|split]]].
  - intros typed ws Hlen.
    rewrite (count_typed_spec typed ws 0%nat) by lia. rewrite drop_0. reflexivity.
  - exact Quit_summary.
  - intros c d. split; reflexivity.
  - intros c minutes. unfold wpm_expr. cbn [div mul of_int rational].
    unfold Qdiv. rewrite Qinv_mult_distr, Qmult_assoc. reflexivity.
  - repeat split; vm_compute; reflexivity.
Qed.

Lemma X20_wpm_witness :
  count_typed [Good; Bad; Good] 0 ["hello"; "brave"; "world"] 0 0 = Ok (10, 2).
Proof.
  rewrite (proj1 X20_wpm); [reflexivity|simpl; lia].
Defined.

(** X21: one verdict per word where no line is broken. For a non-empty
    word list whose words hold no space, when the wrapper leaves the number
    of spaces of the joined text as it is (as it does on text that fits
    the line), the buffer of the constructed session has exactly
    [len(words)] space-delimited segments, and on every state the loop
    reaches the scan of [Quit] gives exactly [len(words)] verdicts, each
    Good or Bad. *)
Theorem X21_one_verdict_per_word
    (gs : Z -> option (Z * Z)) (ww : string -> Z -> string)
    (ws : list string) (m0 m : Model) :
  ws <> [] ->
  Forall (fun w => count_space w = 0%nat) ws ->
  (forall w h, gs 0 = Some (w, h) ->
     count_space (ww (Join ws " ") w) = count_space (Join ws " ")) ->
  NewModel gs ww ws = Ok m0 ->
  reachable m0 m ->
  List.length (segments (chars m)) = List.length ws /\
  exists typed : list Status,
    typed_of m = Ok typed /\
    List.length typed = List.length ws /\
    Forall (fun v => v = Good \/ v = Bad) typed.
Proof.
  intros Hne Hws Hww H0 Hr.
  assert (wf m0) as Hwf0.
  { eapply NewModel_wf; eauto. intros w h Hgs. rewrite (Hww w h Hgs). lia. }
  pose proof (reachable_wf m0 m Hwf0 Hr) as [Hi _ _].
  destruct (reachable_frame m0 m Hr) as (Hch & _ & _).
  apply NewModel_inv in H0 as (w & h & Hgs & Hm0 & _).
  assert (S (count_space (chars m)) = List.length ws) as Hcount.
  { rewrite Hch, Hm0. simpl. rewrite (Hww w h Hgs), count_space_Join by exact Hws.
    destruct ws; [contradiction|reflexivity]. }
  split; [rewrite segments_length; exact Hcount|].
  destruct (typed_of_length m Hi) as (typed & Ht & Hlen & Hdec).
  exists typed. repeat split; auto. lia.
Qed.

Lemma X21_one_verdict_per_word_witness :
  exists m0 : Model,
    NewModel terminal no_wrap ["cat"; "dog"] = Ok m0 /\
    List.length (segments (chars m0)) = 2%nat /\
    exists typed : list Status,
      typed_of m0 = Ok typed /\ List.length typed = 2%nat /\
      Forall (fun v => v = Good \/ v = Bad) typed.
Proof.
  eexists. split; [vm_compute; reflexivity|].
  eapply (X21_one_verdict_per_word terminal no_wrap ["cat"; "dog"]).
  - discriminate.
  - repeat constructor.
  - intros w h _. reflexivity.
  - vm_compute. reflexivity.
  - apply reach_init.
Defined.
